(** * Podpivo backend ([backend/server.py]): authentication and user lists

    A shallow embedding of the request handlers of [server.py] over a
    small model of the MongoDB collections they talk to.  Documents are
    Python dictionaries (finite maps from field names to values), a
    collection is the list of its documents in insertion order, and every
    handler is a function from the database state and the request to the
    new state and either a response or the exception it raises.  What a
    handler draws from its environment (a fresh [uuid4], the clock, the
    salt of a password hash) is an argument of the function.  Requests
    are handled one at a time. *)

From Stdlib Require Import ZArith Ascii DecimalString DecimalZ.
From stdpp Require Import gmap strings list fin_maps.

Local Open Scope Z_scope.
Local Open Scope string_scope.
Local Open Scope list_scope.

(** ** Values and documents *)

(** The BSON/JSON values that occur in the documents of [server.py]:
    [None], [str], [int], [float] (its 64 bits, carried around and never
    computed with), [datetime] and [List[str]].  A [datetime] is the
    number of microseconds since the epoch, the resolution of Python's
    [datetime.now]. *)
Inductive Value :=
  | VNone
  | VStr (s : string)
  | VInt (n : Z)
  | VFloat (bits : Z)
  | VDate (t : Z)
  | VStrs (l : list string).

#[global] Instance Value_eq_dec : EqDecision Value.
Proof. solve_decision. Defined.

(** A document, i.e. a Python [dict] with string keys. *)
Abbreviation Doc := (gmap string Value).

(** A JSON value, as [jwt.decode] hands out the claims of a token: what
    the signer put there, which need not be what this server puts. *)
#[warnings="-register-all"] Inductive Json :=
  | JNull
  | JBool (b : bool)
  | JInt (n : Z)
  | JFloat (bits : Z)
  | JStr (s : string)
  | JArr (l : list Json)
  | JObj (o : list (string * Json)).

(** Python truthiness of a decoded claim, as used by [if not user_id]. *)
Definition Json_truthy (v : Json) : bool :=
  match v with
  | JNull => false
  | JBool b => b
  | JInt n => negb (n =? 0)%Z
  | JFloat bits => negb (Z.land bits (Z.ones 63) =? 0)%Z
  | JStr s => negb (String.eqb s "")
  | JArr l => match l with [] => false | _ => true end
  | JObj o => match o with [] => false | _ => true end
  end.

(** The payload of a decoded token. *)
Abbreviation Claims := (gmap string Json).

(** ** The fragment of the MongoDB query language used by the handlers

    A query is a conjunction of conditions on fields; a condition is
    equality with a value or membership in a list of values.  The fields
    the handlers query hold strings, so equality is equality of scalars. *)

Inductive Cond :=
  | CEq (v : Value)            (* {'field': v} *)
  | CIn (vs : list Value).     (* {'field': {'$in': vs}} *)

Definition Query := list (string * Cond).

Definition cond_holds (c : Cond) (v : Value) : bool :=
  match c with
  | CEq w => bool_decide (v = w)
  | CIn ws => bool_decide (v ∈ ws)
  end.

Definition field_matches (d : Doc) (kc : string * Cond) : bool :=
  match d !! kc.1 with
  | Some v => cond_holds kc.2 v
  | None => false
  end.

Definition matches (q : Query) (d : Doc) : bool := forallb (field_matches d) q.

(** [collection.find(q).to_list(length=None)] *)
Definition find (col : list Doc) (q : Query) : list Doc :=
  List.filter (matches q) col.

(** [collection.find_one(q)] *)
Definition find_one (col : list Doc) (q : Query) : option Doc :=
  List.find (matches q) col.

(** [collection.insert_one(d)] *)
Definition insert_one (col : list Doc) (d : Doc) : list Doc := col ++ [d].

(** [collection.delete_one(q)]: the collection without its first matching
    document, and [deleted_count]. *)
Fixpoint delete_one (col : list Doc) (q : Query) : list Doc * Z :=
  match col with
  | [] => ([], 0)
  | d :: rest =>
      if matches q d then (rest, 1)
      else let r := delete_one rest q in (d :: r.1, r.2)
  end.

(** ** The pydantic models *)

(** Field accessors with the type the model declares for the field. *)
Definition as_str (v : Value) : option string :=
  match v with VStr s => Some s | _ => None end.
Definition as_int (v : Value) : option Z :=
  match v with VInt n => Some n | _ => None end.
Definition as_float (v : Value) : option Z :=
  match v with VFloat b => Some b | _ => None end.
Definition as_date (v : Value) : option Z :=
  match v with VDate t => Some t | _ => None end.
Definition as_strs (v : Value) : option (list string) :=
  match v with VStrs l => Some l | _ => None end.
Definition as_opt_str (v : Value) : option (option string) :=
  match v with VNone => Some None | VStr s => Some (Some s) | _ => None end.

Definition of_opt_str (o : option string) : Value :=
  match o with None => VNone | Some s => VStr s end.

Record UserCreate := {
  UserCreate_email : string;
  UserCreate_password : string;
  UserCreate_name : string }.

Record UserLogin := {
  UserLogin_email : string;
  UserLogin_password : string }.

Record User := {
  User_id : string;
  User_email : string;
  User_name : string;
  User_created_at : Z }.

(** [user.dict()] *)
Definition User_dict (u : User) : Doc :=
  <["id" := VStr (User_id u)]>
  (<["email" := VStr (User_email u)]>
  (<["name" := VStr (User_name u)]>
  (<["created_at" := VDate (User_created_at u)]> ∅))).

(** The keys of [user.dict()]. *)
Definition User_fields : gset string :=
  {[ "id"; "email"; "name"; "created_at" ]}.

(** The constructor call of [User] on the unpacked document [d]: the
    declared fields are read from the document and every other key is
    ignored.  [None] stands for pydantic's validation error; a document
    written by this server always carries the four fields, so the
    [default_factory] of [id] and [created_at] never runs here. *)
Definition User_of (d : Doc) : option User :=
  i ← d !! "id" ≫= as_str;
  e ← d !! "email" ≫= as_str;
  n ← d !! "name" ≫= as_str;
  c ← d !! "created_at" ≫= as_date;
  Some {| User_id := i; User_email := e; User_name := n; User_created_at := c |}.

Record Movie := {
  Movie_id : string;
  Movie_title : string;
  Movie_title_ru : string;
  Movie_description : string;
  Movie_description_ru : string;
  Movie_year : Z;
  Movie_duration : Z;
  Movie_genre_ids : list string;
  Movie_poster_url : string;
  Movie_trailer_url : string;
  Movie_video_url : option string;
  Movie_rating : Z;
  Movie_created_at : Z }.

Record MovieCreate := {
  MovieCreate_title : string;
  MovieCreate_title_ru : string;
  MovieCreate_description : string;
  MovieCreate_description_ru : string;
  MovieCreate_year : Z;
  MovieCreate_duration : Z;
  MovieCreate_genre_ids : list string;
  MovieCreate_poster_url : string;
  MovieCreate_trailer_url : string;
  MovieCreate_video_url : option string;
  MovieCreate_rating : Z }.

(** [movie.dict()] *)
Definition Movie_dict (m : Movie) : Doc :=
  <["id" := VStr (Movie_id m)]>
  (<["title" := VStr (Movie_title m)]>
  (<["title_ru" := VStr (Movie_title_ru m)]>
  (<["description" := VStr (Movie_description m)]>
  (<["description_ru" := VStr (Movie_description_ru m)]>
  (<["year" := VInt (Movie_year m)]>
  (<["duration" := VInt (Movie_duration m)]>
  (<["genre_ids" := VStrs (Movie_genre_ids m)]>
  (<["poster_url" := VStr (Movie_poster_url m)]>
  (<["trailer_url" := VStr (Movie_trailer_url m)]>
  (<["video_url" := of_opt_str (Movie_video_url m)]>
  (<["rating" := VFloat (Movie_rating m)]>
  (<["created_at" := VDate (Movie_created_at m)]> ∅)))))))))))).

(** The constructor call of [Movie] on the unpacked document [d]; [None]
    when a declared field is missing or has another type. *)
Definition Movie_of (d : Doc) : option Movie :=
  i ← d !! "id" ≫= as_str;
  t ← d !! "title" ≫= as_str;
  tr ← d !! "title_ru" ≫= as_str;
  de ← d !! "description" ≫= as_str;
  dr ← d !! "description_ru" ≫= as_str;
  y ← d !! "year" ≫= as_int;
  du ← d !! "duration" ≫= as_int;
  g ← d !! "genre_ids" ≫= as_strs;
  p ← d !! "poster_url" ≫= as_str;
  tu ← d !! "trailer_url" ≫= as_str;
  v ← d !! "video_url" ≫= as_opt_str;
  r ← d !! "rating" ≫= as_float;
  c ← d !! "created_at" ≫= as_date;
  Some {| Movie_id := i; Movie_title := t; Movie_title_ru := tr;
          Movie_description := de; Movie_description_ru := dr;
          Movie_year := y; Movie_duration := du; Movie_genre_ids := g;
          Movie_poster_url := p; Movie_trailer_url := tu;
          Movie_video_url := v; Movie_rating := r; Movie_created_at := c |}.

(** [Movie] built from the fields of a [MovieCreate]: [id] and
    [created_at] come from the default factories ([uuid4] and the clock). *)
Definition Movie_new (uuid : string) (now : Z) (md : MovieCreate) : Movie :=
  {| Movie_id := uuid;
     Movie_title := MovieCreate_title md;
     Movie_title_ru := MovieCreate_title_ru md;
     Movie_description := MovieCreate_description md;
     Movie_description_ru := MovieCreate_description_ru md;
     Movie_year := MovieCreate_year md;
     Movie_duration := MovieCreate_duration md;
     Movie_genre_ids := MovieCreate_genre_ids md;
     Movie_poster_url := MovieCreate_poster_url md;
     Movie_trailer_url := MovieCreate_trailer_url md;
     Movie_video_url := MovieCreate_video_url md;
     Movie_rating := MovieCreate_rating md;
     Movie_created_at := now |}.

Record UserList := {
  UserList_id : string;
  UserList_user_id : string;
  UserList_movie_id : string;
  UserList_list_type : string;
  UserList_created_at : Z }.

(** [user_list.dict()] *)
Definition UserList_dict (l : UserList) : Doc :=
  <["id" := VStr (UserList_id l)]>
  (<["user_id" := VStr (UserList_user_id l)]>
  (<["movie_id" := VStr (UserList_movie_id l)]>
  (<["list_type" := VStr (UserList_list_type l)]>
  (<["created_at" := VDate (UserList_created_at l)]> ∅)))).

Record Genre := {
  Genre_id : string;
  Genre_name : string;
  Genre_name_ru : string }.

(** [genre.dict()] *)
Definition Genre_dict (g : Genre) : Doc :=
  <["id" := VStr (Genre_id g)]>
  (<["name" := VStr (Genre_name g)]>
  (<["name_ru" := VStr (Genre_name_ru g)]> ∅)).

(** The constructor call of [Genre] on the unpacked document [d]. *)
Definition Genre_of (d : Doc) : option Genre :=
  i ← d !! "id" ≫= as_str;
  n ← d !! "name" ≫= as_str;
  r ← d !! "name_ru" ≫= as_str;
  Some {| Genre_id := i; Genre_name := n; Genre_name_ru := r |}.

(** ** Exceptions and results *)

Inductive Exception :=
  | HTTPException (status_code : Z) (detail : string)
  | ExpiredSignatureError        (* jwt.ExpiredSignatureError *)
  | InvalidTokenError            (* any other jwt.InvalidTokenError *)
  | KeyError (key : string)
  | TypeError
  | ValidationError              (* pydantic *)
  | OverflowError                (* bson: an int beyond 8 bytes *)
  | OperationFailure.            (* pymongo: the server refuses the query *)

Inductive Result (A : Type) :=
  | Ok (a : A)
  | Raise (e : Exception).
Arguments Ok {A} a.
Arguments Raise {A} e.

#[global] Instance Result_ret : MRet Result := fun A a => Ok a.
#[global] Instance Result_bind : MBind Result := fun A B f m =>
  match m with Ok a => f a | Raise e => Raise e end.

(** An [option] turned into a result that raises [e] on [None]. *)
Definition or_raise {A} (e : Exception) (o : option A) : Result A :=
  match o with Some a => Ok a | None => Raise e end.

(** A list comprehension whose body may raise. *)
Fixpoint for_each {A B} (f : A → Result B) (l : list A) : Result (list B) :=
  match l with
  | [] => Ok []
  | a :: rest => b ← f a; bs ← for_each f rest; Ok (b :: bs)
  end.

(** ** The database *)

(** The collections [db.users], [db.movies] and [db.user_lists].  The
    [_id] key that the driver adds to a stored document is left out: no
    query and no model of [server.py] mentions it.  [db.genres] is only
    touched by the genre endpoints and is left out as well. *)
Record DB := {
  users : list Doc;
  movies : list Doc;
  user_lists : list Doc }.

Definition empty_db : DB := {| users := []; movies := []; user_lists := [] |}.

Definition set_users (s : DB) (c : list Doc) : DB :=
  {| users := c; movies := movies s; user_lists := user_lists s |}.
Definition set_movies (s : DB) (c : list Doc) : DB :=
  {| users := users s; movies := c; user_lists := user_lists s |}.
Definition set_user_lists (s : DB) (c : list Doc) : DB :=
  {| users := users s; movies := movies s; user_lists := c |}.

(** ** Constants *)

Definition JWT_ALGORITHM : string := "HS256".
Definition JWT_EXPIRATION : Z := 24.  (* hours *)

(** [timedelta(hours=h)] in microseconds. *)
Definition timedelta_hours (h : Z) : Z := h * 3600 * 1000000.

(** The start of the second an instant falls in.  The [exp] claim of a
    token is a whole number of seconds: [jwt.encode] drops the
    microseconds of the [datetime] it is given. *)
Definition whole_second (t : Z) : Z := t / 1000000 * 1000000.

(** The instant from which a token made at [T] is expired. *)
Definition token_expiry (T : Z) : Z :=
  whole_second (T + timedelta_hours JWT_EXPIRATION).

(** ** Responses *)

Record AuthResponse := {
  resp_user : User;
  resp_token : string;
  resp_message : string }.

(** ** The libraries and the environment

    [server.py] calls [passlib] for the password hashes and [jwt] for the
    tokens, and reads the signing key from the environment.  Their code is
    not part of the repository, so the handlers are defined over an
    interface with one operation per call the handlers make.  A token is
    the string the library makes of a payload; the handlers never look
    inside it.  The interface also has MongoDB's reading of a query
    value that is not a string, which only a [user_id] claim of a token
    can be: every other query value of the handlers is a [str]. *)
Class Libraries := {
  (** the process-wide signing key, read from the environment at start-up *)
  JWT_SECRET : string;
  (** [pwd_context.hash(password)], with the salt it draws made explicit *)
  pwd_context_hash : string → string → string;
  (** [pwd_context.verify(plain, hashed)] *)
  pwd_context_verify : string → string → bool;
  (** [jwt.encode(payload, key, algorithm)] *)
  jwt_encode : Doc → string → string → string;
  (** [jwt.decode(token, key, algorithms)]; the last argument is the clock
      the library reads, in microseconds *)
  jwt_decode : string → string → list string → Z → Result Claims;
  (** the query [{field: value}] as the driver and MongoDB read it when
      [value] is not a string: a number is compared as a number, an
      array with arrays and their elements, an object is an operator
      expression such as [{'$ne': ''}] or an embedded document; the
      encoder or the server may refuse the value *)
  mongo_field_cond : string → Json → Result (Doc → bool) }.

(** The query of [register] and [login]. *)
Definition email_query (email : string) : Query := [("email", CEq (VStr email))].

(** What [login] raises when it fails. *)
Definition invalid_credentials : Exception :=
  HTTPException 401 "Invalid credentials".

(** ** Authentication *)

Section Auth.

Context `{libs : Libraries}.

Definition hash_password (salt password : string) : string :=
  pwd_context_hash salt password.

Definition verify_password (plain_password hashed_password : string) : bool :=
  pwd_context_verify plain_password hashed_password.

Definition create_jwt_token (now : Z) (user_id : string) : string :=
  let payload : Doc :=
    <["user_id" := VStr user_id]>
    (<["exp" := VDate (now + timedelta_hours JWT_EXPIRATION)]> ∅) in
  jwt_encode payload JWT_SECRET JWT_ALGORITHM.

(** [collection.find_one({field: value})] for a [value] that came out
    of a token.  A string is compared with the field; anything else is
    put into the query as it is, and MongoDB has its own reading of
    it. *)
Definition find_one_claim (col : list Doc) (field : string) (value : Json)
  : Result (option Doc) :=
  match value with
  | JStr v => Ok (find_one col [(field, CEq (VStr v))])
  | _ => holds ← mongo_field_cond field value; Ok (List.find holds col)
  end.

(** The body of the [try] block of [get_current_user]. *)
Definition get_current_user_try (s : DB) (now : Z) (token : string)
  : Result User :=
  payload ← jwt_decode token JWT_SECRET [JWT_ALGORITHM] now;
  let user_id := payload !! "user_id" in
  match user_id with
  | Some uid =>
      if Json_truthy uid then
        user ← find_one_claim (users s) "id" uid;
        match user with
        | Some user => or_raise ValidationError (User_of user)
        | None => Raise (HTTPException 401 "User not found")
        end
      else Raise (HTTPException 401 "Invalid token")
  | None => Raise (HTTPException 401 "Invalid token")
  end.

(** [get_current_user]: the two [except] clauses, tried in order; every
    other exception (the [HTTPException]s raised inside the block among
    them) propagates. *)
Definition get_current_user (s : DB) (now : Z) (token : string)
  : Result User :=
  match get_current_user_try s now token with
  | Raise ExpiredSignatureError => Raise (HTTPException 401 "Token expired")
  | Raise InvalidTokenError => Raise (HTTPException 401 "Invalid token")
  | r => r
  end.

(** [POST /auth/register].  [uuid] and [created_at] are what the default
    factories of [User] produce, [salt] what the hasher draws and [now]
    the clock at the time the token is made. *)
Definition register (s : DB) (uuid : string) (created_at : Z)
    (salt : string) (now : Z) (user_data : UserCreate)
  : DB * Result AuthResponse :=
  let existing_user :=
    find_one (users s) (email_query (UserCreate_email user_data)) in
  match existing_user with
  | Some _ => (s, Raise (HTTPException 400 "Email already registered"))
  | None =>
      let user := {| User_id := uuid;
                     User_email := UserCreate_email user_data;
                     User_name := UserCreate_name user_data;
                     User_created_at := created_at |} in
      let user_dict :=
        <["password_hash" :=
            VStr (hash_password salt (UserCreate_password user_data))]>
          (User_dict user) in
      let s' := set_users s (insert_one (users s) user_dict) in
      let token := create_jwt_token now (User_id user) in
      (s', Ok {| resp_user := user; resp_token := token;
                 resp_message := "Registration successful" |})
  end.

(** [POST /auth/login] *)
Definition login (s : DB) (now : Z) (login_data : UserLogin)
  : Result AuthResponse :=
  match find_one (users s) (email_query (UserLogin_email login_data)) with
  | None => Raise invalid_credentials
  | Some user_data =>
      stored ← or_raise (KeyError "password_hash") (user_data !! "password_hash");
      hashed ← or_raise TypeError (as_str stored);
      if negb (verify_password (UserLogin_password login_data) hashed) then
        Raise invalid_credentials
      else
        user ← or_raise ValidationError (User_of user_data);
        let token := create_jwt_token now (User_id user) in
        Ok {| resp_user := user; resp_token := token;
              resp_message := "Login successful" |}
  end.

(** [GET /auth/me] *)
Definition get_me (s : DB) (now : Z) (token : string) : Result User :=
  get_current_user s now token.

End Auth.

(** ** Catalogue and user lists *)

(** A Python [int] that BSON can hold: a signed integer of 8 bytes. *)
Definition int64 (n : Z) : bool := (- 2 ^ 63 <=? n)%Z && (n <? 2 ^ 63)%Z.

(** The document of a movie can be encoded: its two [int] fields fit. *)
Definition Movie_encodable (m : Movie) : bool :=
  int64 (Movie_year m) && int64 (Movie_duration m).

(** The fields of a movie that came with the request. *)
Definition MovieCreate_of (m : Movie) : MovieCreate :=
  {| MovieCreate_title := Movie_title m;
     MovieCreate_title_ru := Movie_title_ru m;
     MovieCreate_description := Movie_description m;
     MovieCreate_description_ru := Movie_description_ru m;
     MovieCreate_year := Movie_year m;
     MovieCreate_duration := Movie_duration m;
     MovieCreate_genre_ids := Movie_genre_ids m;
     MovieCreate_poster_url := Movie_poster_url m;
     MovieCreate_trailer_url := Movie_trailer_url m;
     MovieCreate_video_url := Movie_video_url m;
     MovieCreate_rating := Movie_rating m |}.

(** [POST /movies].  [insert_one] raises [OverflowError], and stores
    nothing, when [year] or [duration] does not fit in 8 bytes; the
    handler does not catch it. *)
Definition create_movie (s : DB) (uuid : string) (now : Z)
    (movie_data : MovieCreate) : DB * Result Movie :=
  let movie := Movie_new uuid now movie_data in
  if Movie_encodable movie then
    (set_movies s (insert_one (movies s) (Movie_dict movie)), Ok movie)
  else (s, Raise OverflowError).

(** The query of [add_to_list] and [remove_from_list]. *)
Definition membership_query (user_id movie_id list_type : string) : Query :=
  [("user_id", CEq (VStr user_id));
   ("movie_id", CEq (VStr movie_id));
   ("list_type", CEq (VStr list_type))].

(** [POST /user/lists], after [get_current_user] has produced
    [current_user].  [uuid] and [now] feed the default factories of
    [UserList]. *)
Definition add_to_list (s : DB) (uuid : string) (now : Z)
    (movie_id list_type : string) (current_user : User)
  : DB * Result string :=
  let existing :=
    find_one (user_lists s)
      (membership_query (User_id current_user) movie_id list_type) in
  match existing with
  | Some _ => (s, Raise (HTTPException 400 "Already in list"))
  | None =>
      let user_list := {| UserList_id := uuid;
                          UserList_user_id := User_id current_user;
                          UserList_movie_id := movie_id;
                          UserList_list_type := list_type;
                          UserList_created_at := now |} in
      (set_user_lists s (insert_one (user_lists s) (UserList_dict user_list)),
       Ok ("Added to " +:+ list_type))
  end.

(** [DELETE /user/lists] *)
Definition remove_from_list (s : DB) (movie_id list_type : string)
    (current_user : User) : DB * Result string :=
  let result :=
    delete_one (user_lists s)
      (membership_query (User_id current_user) movie_id list_type) in
  let s' := set_user_lists s result.1 in
  if (result.2 =? 0)%Z then
    (s', Raise (HTTPException 404 "Item not found in list"))
  else (s', Ok ("Removed from " +:+ list_type)).

(** [GET /user/lists/{list_type}] *)
Definition get_user_list (s : DB) (list_type : string) (current_user : User)
  : Result (list Movie) :=
  let found :=
    find (user_lists s)
      [("user_id", CEq (VStr (User_id current_user)));
       ("list_type", CEq (VStr list_type))] in
  movie_ids ← for_each (fun item => or_raise (KeyError "movie_id") (item !! "movie_id")) found;
  let ms := find (movies s) [("id", CIn movie_ids)] in
  for_each (fun movie => or_raise ValidationError (Movie_of movie)) ms.

(** [GET /movies/{movie_id}] *)
Definition get_movie (s : DB) (movie_id : string) : Result Movie :=
  match find_one (movies s) [("id", CEq (VStr movie_id))] with
  | None => Raise (HTTPException 404 "Movie not found")
  | Some movie => or_raise ValidationError (Movie_of movie)
  end.

(** ** The list endpoints behind their dependency

    [current_user: User = Depends(get_current_user)]: the framework runs
    [get_current_user] on the bearer token of the request first, and calls
    the handler with the user it returns; when it raises, the handler is
    not called.  (A request without a bearer token is answered by the
    framework before any code of [server.py] runs.) *)
Definition Depends_get_current_user `{libs : Libraries} {A}
    (s : DB) (now : Z) (token : string) (handler : User → DB * Result A)
  : DB * Result A :=
  match get_current_user s now token with
  | Ok current_user => handler current_user
  | Raise e => (s, Raise e)
  end.

(** [POST /user/lists] with a bearer token. *)
Definition post_user_lists `{libs : Libraries} (s : DB) (now : Z) (token : string)
    (uuid : string) (created_at : Z) (movie_id list_type : string)
  : DB * Result string :=
  Depends_get_current_user s now token
    (add_to_list s uuid created_at movie_id list_type).

(** [DELETE /user/lists] with a bearer token. *)
Definition delete_user_lists `{libs : Libraries} (s : DB) (now : Z) (token : string)
    (movie_id list_type : string) : DB * Result string :=
  Depends_get_current_user s now token (remove_from_list s movie_id list_type).

(** [GET /user/lists/{list_type}] with a bearer token. *)
Definition get_user_lists `{libs : Libraries} (s : DB) (now : Z) (token : string)
    (list_type : string) : DB * Result (list Movie) :=
  Depends_get_current_user s now token
    (fun current_user => (s, get_user_list s list_type current_user)).

(** ** Genres and the seeding endpoint *)

(** [GET /genres], on the collection [db.genres]. *)
Definition get_genres (genres : list Doc) : Result (list Genre) :=
  for_each (fun genre => or_raise ValidationError (Genre_of genre)) (find genres []).

(** [POST /genres]: the genre of the request body is stored as it is. *)
Definition create_genre (genres : list Doc) (genre : Genre)
  : list Doc * Result Genre :=
  (insert_one genres (Genre_dict genre), Ok genre).

(** The database with [db.genres]. *)
Record Site := {
  site_db : DB;
  site_genres : list Doc }.

Definition sample_genres : list Genre :=
  [ {| Genre_id := "action"; Genre_name := "Action"; Genre_name_ru := "Боевик" |};
    {| Genre_id := "drama"; Genre_name := "Drama"; Genre_name_ru := "Драма" |};
    {| Genre_id := "comedy"; Genre_name := "Comedy"; Genre_name_ru := "Комедия" |};
    {| Genre_id := "thriller"; Genre_name := "Thriller"; Genre_name_ru := "Триллер" |};
    {| Genre_id := "sci-fi"; Genre_name := "Sci-Fi"; Genre_name_ru := "Фантастика" |};
    {| Genre_id := "horror"; Genre_name := "Horror"; Genre_name_ru := "Ужасы" |} ].

Definition sample_movies : list MovieCreate :=
  [ {| MovieCreate_title := "The Matrix";
       MovieCreate_title_ru := "Матрица";
       MovieCreate_description := "A computer programmer discovers reality is a simulation.";
       MovieCreate_description_ru := "Программист обнаруживает, что реальность - это симуляция.";
       MovieCreate_year := 1999;
       MovieCreate_duration := 136;
       MovieCreate_genre_ids := ["action"; "sci-fi"];
       MovieCreate_poster_url := "https://image.tmdb.org/t/p/w500/f89U3ADr1oiB1s9GkdPOEpXUk5H.jpg";
       MovieCreate_trailer_url := "https://www.youtube.com/watch?v=vKQi3bBA1y8";
       MovieCreate_video_url := None;
       MovieCreate_rating := 0x4021666666666666 |};   (* 8.7 *)
    {| MovieCreate_title := "Inception";
       MovieCreate_title_ru := "Начало";
       MovieCreate_description := "A thief enters dreams to steal secrets.";
       MovieCreate_description_ru := "Вор проникает в сны, чтобы красть секреты.";
       MovieCreate_year := 2010;
       MovieCreate_duration := 148;
       MovieCreate_genre_ids := ["action"; "thriller"; "sci-fi"];
       MovieCreate_poster_url := "https://image.tmdb.org/t/p/w500/9gk7adHYeDvHkCSEqAvQNLV5Uge.jpg";
       MovieCreate_trailer_url := "https://www.youtube.com/watch?v=YoHD9XEInc0";
       MovieCreate_video_url := None;
       MovieCreate_rating := 0x402199999999999a |};   (* 8.8 *)
    {| MovieCreate_title := "The Dark Knight";
       MovieCreate_title_ru := "Темный рыцарь";
       MovieCreate_description := "Batman faces his greatest challenge with the Joker.";
       MovieCreate_description_ru := "Бэтмен сталкивается с величайшим вызовом - Джокером.";
       MovieCreate_year := 2008;
       MovieCreate_duration := 152;
       MovieCreate_genre_ids := ["action"; "drama"; "thriller"];
       MovieCreate_poster_url := "https://image.tmdb.org/t/p/w500/qJ2tW6WMUDux911r6m7haRef0WH.jpg";
       MovieCreate_trailer_url := "https://www.youtube.com/watch?v=EXeTwQWrcwY";
       MovieCreate_video_url := None;
       MovieCreate_rating := 0x4022000000000000 |};   (* 9.0 *)
    {| MovieCreate_title := "Pulp Fiction";
       MovieCreate_title_ru := "Криминальное чтиво";
       MovieCreate_description := "Multiple interconnected criminal stories in Los Angeles.";
       MovieCreate_description_ru := "Несколько взаимосвязанных криминальных историй в Лос-Анджелесе.";
       MovieCreate_year := 1994;
       MovieCreate_duration := 154;
       MovieCreate_genre_ids := ["drama"; "thriller"];
       MovieCreate_poster_url := "https://image.tmdb.org/t/p/w500/d5iIlFn5s0ImszYzBPb8JPIfbXD.jpg";
       MovieCreate_trailer_url := "https://www.youtube.com/watch?v=s7EdQ4FqbhY";
       MovieCreate_video_url := None;
       MovieCreate_rating := 0x4021cccccccccccd |} ]. (* 8.9 *)

(** One turn of the first loop of [init_sample_data]. *)
Definition seed_genre (genres : list Doc) (genre : Genre) : list Doc :=
  match find_one genres [("id", CEq (VStr (Genre_id genre)))] with
  | Some _ => genres
  | None => insert_one genres (Genre_dict genre)
  end.

(** One turn of its second loop, on the [Movie] built from the sample. *)
Definition seed_movie (movies : list Doc) (movie : Movie) : list Doc :=
  match find_one movies [("title", CEq (VStr (Movie_title movie)))] with
  | Some _ => movies
  | None => insert_one movies (Movie_dict movie)
  end.

(** The movies the second loop builds: the [i]-th takes the [i]-th
    [uuid4] and the [i]-th reading of the clock. *)
Definition seed_movies (uuid : nat → string) (now : nat → Z)
    (samples : list MovieCreate) : list Movie :=
  imap (fun i movie_data => Movie_new (uuid i) (now i) movie_data) samples.

(** [POST /init-data] *)
Definition init_sample_data (s : Site) (uuid : nat → string) (now : nat → Z)
  : Site * Result string :=
  let genres' := fold_left seed_genre sample_genres (site_genres s) in
  let movies' :=
    fold_left seed_movie (seed_movies uuid now sample_movies) (movies (site_db s)) in
  ({| site_db := set_movies (site_db s) movies'; site_genres := genres' |},
   Ok "Sample data initialized successfully").

(** ** Reachable states *)

(** One request that may change the database.  The identifier of a new
    user is the string of a [uuid4], which is never empty.  The seeding
    endpoint stores documents of the shape [create_movie] stores, so its
    effect on [db.movies] is a sequence of [step_create_movie]. *)
Inductive step `{libs : Libraries} : DB → DB → Prop :=
  | step_register s uuid created_at salt now user_data :
      uuid ≠ "" →
      step s (register s uuid created_at salt now user_data).1
  | step_create_movie s uuid now movie_data :
      step s (create_movie s uuid now movie_data).1
  | step_add_to_list s uuid now movie_id list_type current_user :
      step s (add_to_list s uuid now movie_id list_type current_user).1
  | step_remove_from_list s movie_id list_type current_user :
      step s (remove_from_list s movie_id list_type current_user).1.

(** The states the server reaches from the empty database. *)
Inductive reachable `{libs : Libraries} : DB → Prop :=
  | reachable_empty : reachable empty_db
  | reachable_step s s' : reachable s → step s s' → reachable s'.

(** The states of [db.genres]: empty at first, then written by
    [create_genre] and by the first loop of [init_sample_data]. *)
Inductive genres_reachable : list Doc → Prop :=
  | genres_empty : genres_reachable []
  | genres_create genres genre :
      genres_reachable genres →
      genres_reachable (create_genre genres genre).1
  | genres_seed genres :
      genres_reachable genres →
      genres_reachable (fold_left seed_genre sample_genres genres).

(** ** Predicates on states *)

(** Some stored user has this email. *)
Definition email_registered (s : DB) (email : string) : bool :=
  existsb (fun d : Doc => bool_decide (d !! "email" = Some (VStr email))) (users s).

(** Some stored user has this identifier. *)
Definition user_exists (s : DB) (user_id : string) : bool :=
  existsb (fun d : Doc => bool_decide (d !! "id" = Some (VStr user_id))) (users s).

(** Some document of the collection has the value [v] in the field [k]. *)
Definition has_field (k : string) (v : Value) (col : list Doc) : bool :=
  existsb (fun d : Doc => bool_decide (d !! k = Some v)) col.

(** The common shape of the two loops of [init_sample_data]: a document
    is stored unless one with its key is there already. *)
Definition seed_with {A} (k : string) (key : A → Value) (dict : A → Doc)
    (col : list Doc) (a : A) : list Doc :=
  match find_one col [(k, CEq (key a))] with
  | Some _ => col
  | None => insert_one col (dict a)
  end.

(** How many stored users have this email. *)
Definition email_count (s : DB) (email : string) : nat :=
  length (find (users s) (email_query email)).

(** How often a movie with this identifier occurs in a response. *)
Definition count_movie (movie_id : string) (ms : list Movie) : nat :=
  length (List.filter (fun x => bool_decide (Movie_id x = movie_id)) ms).

(** How many documents of [db.movies] have this identifier. *)
Definition catalogue_count (s : DB) (movie_id : string) : nat :=
  length (find (movies s) [("id", CEq (VStr movie_id))]).

(** ** Invariants of the collections *)

(** Number of membership records for a triple (user, movie, list type). *)
Definition membership_count (s : DB) (user_id movie_id list_type : string) : nat :=
  length (find (user_lists s) (membership_query user_id movie_id list_type)).

Definition memberships_unique (s : DB) : Prop :=
  ∀ u m t, (membership_count s u m t ≤ 1)%nat.

(** Every stored document was written by the handler of its collection. *)
Definition users_wf (s : DB) : Prop :=
  Forall (fun d : Doc =>
            ∃ u h, d = <["password_hash" := VStr h]> (User_dict u) ∧ User_id u ≠ "")
         (users s).
Definition movies_wf (s : DB) : Prop :=
  Forall (fun d : Doc => ∃ m, d = Movie_dict m) (movies s).
Definition user_lists_wf (s : DB) : Prop :=
  Forall (fun d : Doc => ∃ l, d = UserList_dict l) (user_lists s).

(** The four invariants together. *)
Definition invariant (s : DB) : Prop :=
  memberships_unique s ∧ users_wf s ∧ movies_wf s ∧ user_lists_wf s.

(** ** Issued tokens *)

(** [token] is handed out at time [T] for the user [user_id], by a
    [register] or a [login] that takes the state [s] to [s']. *)
Definition issued `{libs : Libraries} (s : DB) (T : Z) (token user_id : string)
    (s' : DB) : Prop :=
  (∃ uuid created_at salt user_data r,
      uuid ≠ "" ∧
      register s uuid created_at salt T user_data = (s', Ok r) ∧
      token = resp_token r ∧ user_id = User_id (resp_user r)) ∨
  (∃ login_data r,
      login s T login_data = Ok r ∧ s' = s ∧
      token = resp_token r ∧ user_id = User_id (resp_user r)).

(** ** What the handlers expect of the libraries *)

(** The payload [create_jwt_token] signs. *)
Definition token_payload (user_id : string) (exp : Z) : Doc :=
  <["user_id" := VStr user_id]> (<["exp" := VDate exp]> ∅).

(** [jwt.decode] on a token that [jwt.encode] made with the same key and
    algorithm.  The token carries the expiry time [exp] cut down to a
    whole second; on or after that second [jwt.decode] raises
    [ExpiredSignatureError], before it returns claims with the subject
    that was signed. *)
Definition jwt_round_trip `{libs : Libraries} (user_id : string) (exp now : Z) : Prop :=
  let token := jwt_encode (token_payload user_id exp) JWT_SECRET JWT_ALGORITHM in
  if (whole_second exp <=? now)%Z then
    jwt_decode token JWT_SECRET [JWT_ALGORITHM] now = Raise ExpiredSignatureError
  else
    ∃ claims, jwt_decode token JWT_SECRET [JWT_ALGORITHM] now = Ok claims ∧
              claims !! "user_id" = Some (JStr user_id).

(** [pwd_context.verify] accepts the hash [pwd_context.hash] made of the
    same password. *)
Definition verify_accepts_hash `{libs : Libraries} (salt password : string) : Prop :=
  pwd_context_verify password (pwd_context_hash salt password) = true.

(** ** A small instance of the libraries

    Enough to run the handlers on concrete requests: the hash is the salt
    followed by the password, and a token is the expiry time in whole
    seconds, in decimal, a dot, and the subject. *)
Module Sample.

Fixpoint split_dot (s : string) : option (string * string) :=
  match s with
  | EmptyString => None
  | String c rest =>
      if Ascii.eqb c "."%char then Some (EmptyString, rest)
      else match split_dot rest with
           | Some (a, b) => Some (String c a, b)
           | None => None
           end
  end.

Fixpoint drop_salt (s : string) : string :=
  match s with
  | EmptyString => EmptyString
  | String c rest => if Ascii.eqb c "$"%char then rest else drop_salt rest
  end.

Definition hash (salt password : string) : string :=
  salt +:+ "$" +:+ password.

Definition verify (plain hashed : string) : bool :=
  String.eqb (drop_salt hashed) plain.

Definition encode (payload : Doc) (key algorithm : string) : string :=
  match payload !! "exp", payload !! "user_id" with
  | Some (VDate e), Some (VStr u) =>
      DecimalString.NilEmpty.string_of_int (Z.to_int (e / 1000000)) +:+ "." +:+ u
  | _, _ => EmptyString
  end.

(** A token [e.u] carries the expiry [e], in seconds, and the string
    [u] as [user_id]; a token [ne.u] carries no expiry and the object
    [{'$ne': u}] as [user_id]. *)
Definition decode (token key : string) (algorithms : list string) (now : Z)
  : Result Claims :=
  match split_dot token with
  | Some (e, u) =>
      match DecimalString.NilEmpty.int_of_string e with
      | Some d =>
          if (Z.of_int d * 1000000 <=? now)%Z then Raise ExpiredSignatureError
          else Ok (<["user_id" := JStr u]> (<["exp" := JInt (Z.of_int d)]> ∅))
      | None =>
          if String.eqb e "ne" then Ok (<["user_id" := JObj [("$ne", JStr u)]]> ∅)
          else Raise InvalidTokenError
      end
  | None => Raise InvalidTokenError
  end.

(** Of the conditions of MongoDB only [$ne] with a string; every other
    object is refused, and no document has a field equal to a value of
    another kind. *)
Definition field_cond (field : string) (value : Json) : Result (Doc → bool) :=
  match value with
  | JObj [(op, JStr x)] =>
      if String.eqb op "$ne"
      then Ok (fun d : Doc => negb (bool_decide (d !! field = Some (VStr x))))
      else Raise OperationFailure
  | JObj _ => Raise OperationFailure
  | _ => Ok (fun _ : Doc => false)
  end.

Definition libraries : Libraries :=
  {| JWT_SECRET := "netflix-secret-key-123";
     pwd_context_hash := hash;
     pwd_context_verify := verify;
     jwt_encode := encode;
     jwt_decode := decode;
     mongo_field_cond := field_cond |}.

Definition alice : UserCreate :=
  {| UserCreate_email := "alice@example.com";
     UserCreate_password := "pw123";
     UserCreate_name := "Alice" |}.

Definition alice_login : UserLogin :=
  {| UserLogin_email := "alice@example.com"; UserLogin_password := "pw123" |}.

Definition alice_wrong_password : UserLogin :=
  {| UserLogin_email := "alice@example.com"; UserLogin_password := "wrongpw" |}.

Definition bob_login : UserLogin :=
  {| UserLogin_email := "bob@example.com"; UserLogin_password := "pw123" |}.

Definition alice_user : User :=
  {| User_id := "u-1"; User_email := "alice@example.com";
     User_name := "Alice"; User_created_at := 1000 |}.

Definition matrix : MovieCreate :=
  {| MovieCreate_title := "The Matrix";
     MovieCreate_title_ru := "Matrica";
     MovieCreate_description := "A computer programmer discovers reality is a simulation.";
     MovieCreate_description_ru := "";
     MovieCreate_year := 1999;
     MovieCreate_duration := 136;
     MovieCreate_genre_ids := ["action"; "sci-fi"];
     MovieCreate_poster_url := "https://image.tmdb.org/t/p/w500/f89U3ADr1oiB1s9GkdPOEpXUk5H.jpg";
     MovieCreate_trailer_url := "https://www.youtube.com/watch?v=vKQi3bBA1y8";
     MovieCreate_video_url := None;
     MovieCreate_rating := 0x4021666666666666 |}.

(** The document [register] stores for Alice, and its answer. *)
Definition alice_doc : Doc :=
  <["password_hash" := VStr "salt$pw123"]> (User_dict alice_user).

Definition alice_registered : AuthResponse :=
  {| resp_user := alice_user;
     resp_token := "87400.u-1";
     resp_message := "Registration successful" |}.

Definition alice_logged_in : AuthResponse :=
  {| resp_user := alice_user;
     resp_token := "88400.u-1";
     resp_message := "Login successful" |}.

(** The database after Alice has registered. *)
Definition db1 : DB :=
  (register (libs := libraries) empty_db "u-1" 1000 "salt" 1000 alice).1.

(** ... and after The Matrix has been added to the catalogue. *)
Definition db2 : DB := (create_movie db1 "m-1" 1001 matrix).1.

(** ... and after Alice has put it on her favourites. *)
Definition db3 : DB :=
  (add_to_list db2 "l-1" 1002 "m-1" "favorites" alice_user).1.

End Sample.

(** More sample values, for the catalogue, the genres and the seeding. *)
Module Demo.

Definition bob_user : User :=
  {| User_id := "u-2"; User_email := "bob@example.com";
     User_name := "Bob"; User_created_at := 1500 |}.

Definition matrix_movie : Movie := Movie_new "m-1" 1001 Sample.matrix.

(** A movie whose year, [2 ** 63], is one too many for 8 bytes. *)
Definition far_future : MovieCreate :=
  {| MovieCreate_title := "The Far Future";
     MovieCreate_title_ru := "";
     MovieCreate_description := "";
     MovieCreate_description_ru := "";
     MovieCreate_year := 2 ^ 63;
     MovieCreate_duration := 90;
     MovieCreate_genre_ids := [];
     MovieCreate_poster_url := "";
     MovieCreate_trailer_url := "";
     MovieCreate_video_url := None;
     MovieCreate_rating := 0 |}.

Definition western : Genre :=
  {| Genre_id := "western"; Genre_name := "Western"; Genre_name_ru := "Vestern" |}.

(** The identifiers and the clock readings of one seeding. *)
Definition seed_uuid (i : nat) : string :=
  match i with
  | O => "s-0" | 1%nat => "s-1" | 2%nat => "s-2" | _ => "s-3"
  end.
Definition seed_now (i : nat) : Z := 5000 + Z.of_nat i.

(** The claims of a sample token that expires at 87400 s. *)
Definition claims_for (user_id : string) : Claims :=
  <["user_id" := JStr user_id]> (<["exp" := JInt 87400]> ∅).

(** The claims of the sample token [ne.], whose [user_id] is the object
    [{'$ne': ''}]. *)
Definition claims_ne : Claims := <["user_id" := JObj [("$ne", JStr "")]]> ∅.

Definition site0 : Site := {| site_db := empty_db; site_genres := [] |}.

(** The database after Alice has registered and the seeding has run. *)
Definition site1 : Site :=
  (init_sample_data {| site_db := Sample.db1; site_genres := [] |} seed_uuid seed_now).1.

End Demo.

(** * Properties *)

(** ** The collections *)

Lemma find_app col d q :
  find (col ++ [d]) q = find col q ++ (if matches q d then [d] else []).
Proof. unfold find. rewrite List.filter_app. simpl. by destruct (matches q d). Qed.

Lemma find_one_None col q : find_one col q = None ↔ find col q = [].
Proof.
  unfold find_one, find. induction col as [|d col IH]; simpl; [done|].
  destruct (matches q d); [split; discriminate | exact IH].
Qed.

Lemma find_one_Some_matches col q d :
  find_one col q = Some d → d ∈ col ∧ matches q d = true.
Proof.
  unfold find_one. intros Hf. apply List.find_some in Hf as [Hin Hm].
  split; [by apply list_elem_of_In | done].
Qed.

Lemma find_one_app col d q :
  find_one (col ++ [d]) q =
  match find_one col q with
  | Some x => Some x
  | None => if matches q d then Some d else None
  end.
Proof.
  unfold find_one. induction col as [|x col IH]; simpl; [done|].
  by destruct (matches q x).
Qed.

Lemma delete_one_sublist col q : sublist (delete_one col q).1 col.
Proof.
  induction col as [|d col IH]; simpl; [constructor|].
  destruct (matches q d); simpl; [by apply sublist_cons | by apply sublist_skip].
Qed.

Lemma delete_one_count col q : (0 ≤ (delete_one col q).2 ≤ 1)%Z.
Proof.
  induction col as [|d col IH]; simpl; [lia|].
  destruct (matches q d); simpl; lia.
Qed.

Lemma delete_one_length col q :
  Z.of_nat (length (find (delete_one col q).1 q)) =
  (Z.of_nat (length (find col q)) - (delete_one col q).2)%Z.
Proof.
  induction col as [|d col IH]; simpl; [done|].
  destruct (matches q d) eqn:Hm; simpl; rewrite ?Hm; simpl; lia.
Qed.

Lemma delete_one_zero col q :
  (delete_one col q).2 = 0%Z ↔ find col q = [].
Proof.
  induction col as [|d col IH]; simpl; [done|].
  destruct (matches q d) eqn:Hm; simpl; [split; discriminate | exact IH].
Qed.

Lemma delete_one_zero_id col q :
  (delete_one col q).2 = 0%Z → (delete_one col q).1 = col.
Proof.
  induction col as [|d col IH]; simpl; [done|].
  destruct (matches q d) eqn:Hm; simpl; [discriminate|].
  intros Hz. by rewrite IH.
Qed.

Lemma find_sublist col col' q :
  sublist col col' → (length (find col q) ≤ length (find col' q))%nat.
Proof.
  intros Hs. apply sublist_length. unfold find.
  induction Hs as [|x l1 l2 _ IH|x l1 l2 _ IH]; simpl.
  - constructor.
  - destruct (matches q x); [by apply sublist_skip | done].
  - destruct (matches q x); [by apply sublist_cons | done].
Qed.

(** ** The models *)

Lemma User_of_dict u : User_of (User_dict u) = Some u.
Proof. destruct u. reflexivity. Qed.

Lemma User_of_stored u h :
  User_of (<["password_hash" := VStr h]> (User_dict u)) = Some u.
Proof. destruct u. reflexivity. Qed.

Lemma Movie_of_dict m : Movie_of (Movie_dict m) = Some m.
Proof. destruct m as [? ? ? ? ? ? ? ? ? ? [v|] ? ?]; reflexivity. Qed.

Lemma matches_membership l u m t :
  matches (membership_query u m t) (UserList_dict l) = true ↔
  u = UserList_user_id l ∧ m = UserList_movie_id l ∧ t = UserList_list_type l.
Proof.
  unfold matches, membership_query, field_matches. simpl.
  change (UserList_dict l !! "user_id") with (Some (VStr (UserList_user_id l))).
  change (UserList_dict l !! "movie_id") with (Some (VStr (UserList_movie_id l))).
  change (UserList_dict l !! "list_type") with (Some (VStr (UserList_list_type l))).
  simpl. rewrite !andb_true_iff, !bool_decide_eq_true.
  split.
  - intros [Hu [Hm [Ht _]]]. by simplify_eq.
  - intros (-> & -> & ->). done.
Qed.

(** ** The invariants hold in every reachable state *)

Lemma add_to_list_refuses s uuid now m t cu d :
  find_one (user_lists s) (membership_query (User_id cu) m t) = Some d →
  add_to_list s uuid now m t cu = (s, Raise (HTTPException 400 "Already in list")).
Proof. intros Hf. unfold add_to_list. by rewrite Hf. Qed.

Lemma add_to_list_unique s uuid now m t cu :
  memberships_unique s → memberships_unique (add_to_list s uuid now m t cu).1.
Proof.
  intros Hu. unfold add_to_list.
  destruct (find_one _ _) eqn:Hf; simpl; [done|].
  intros u' m' t'. unfold membership_count. simpl.
  unfold insert_one. rewrite find_app, length_app.
  destruct (matches _ (UserList_dict _)) eqn:Hm; simpl.
  - apply matches_membership in Hm as (-> & -> & ->). simpl.
    apply find_one_None in Hf. rewrite Hf. simpl. lia.
  - specialize (Hu u' m' t'). unfold membership_count in Hu. lia.
Qed.

Lemma remove_from_list_user_lists s m t cu :
  user_lists (remove_from_list s m t cu).1 =
  (delete_one (user_lists s) (membership_query (User_id cu) m t)).1.
Proof. unfold remove_from_list. by destruct (_ =? _)%Z. Qed.

Lemma remove_from_list_unique s m t cu :
  memberships_unique s → memberships_unique (remove_from_list s m t cu).1.
Proof.
  intros Hu u' m' t'. unfold membership_count.
  rewrite remove_from_list_user_lists.
  etrans; [apply find_sublist, delete_one_sublist | apply Hu].
Qed.

Lemma add_to_list_wf s uuid now m t cu :
  user_lists_wf s → user_lists_wf (add_to_list s uuid now m t cu).1.
Proof.
  intros Hw. unfold add_to_list.
  destruct (find_one _ _); simpl; [done|].
  unfold user_lists_wf, insert_one. simpl.
  apply Forall_app. split; [done|]. apply Forall_singleton. eauto.
Qed.

Lemma remove_from_list_wf s m t cu :
  user_lists_wf s → user_lists_wf (remove_from_list s m t cu).1.
Proof.
  unfold user_lists_wf. rewrite remove_from_list_user_lists.
  rewrite !Forall_forall. intros Hw d Hd. apply Hw.
  eapply elem_of_sublist; [exact Hd | apply delete_one_sublist].
Qed.

Lemma remove_from_list_others s m t cu :
  users (remove_from_list s m t cu).1 = users s ∧
  movies (remove_from_list s m t cu).1 = movies s.
Proof. unfold remove_from_list. by destruct (_ =? _)%Z. Qed.

Lemma add_to_list_others s uuid now m t cu :
  users (add_to_list s uuid now m t cu).1 = users s ∧
  movies (add_to_list s uuid now m t cu).1 = movies s.
Proof. unfold add_to_list. by destruct (find_one _ _). Qed.

Section Reachable.

Context `{Libraries}.

Lemma register_user_lists s uuid c salt now ud :
  user_lists (register s uuid c salt now ud).1 = user_lists s ∧
  movies (register s uuid c salt now ud).1 = movies s.
Proof. unfold register. by destruct (find_one _ _). Qed.

Lemma register_wf s uuid c salt now ud :
  uuid ≠ "" → users_wf s → users_wf (register s uuid c salt now ud).1.
Proof.
  intros Hne Hw. unfold register. destruct (find_one _ _); simpl; [done|].
  unfold users_wf, insert_one. simpl.
  apply Forall_app. split; [done|]. apply Forall_singleton. eauto.
Qed.

Lemma invariant_empty : invariant empty_db.
Proof.
  split; [|by repeat split; constructor].
  intros u m t. unfold membership_count. simpl. lia.
Qed.

Lemma invariant_step s s' : step s s' → invariant s → invariant s'.
Proof.
  intros Hstep (Hu & Hus & Hm & Hl).
  destruct Hstep as [s uuid created_at salt now user_data Hne
                    |s uuid now movie_data
                    |s uuid now movie_id list_type current_user
                    |s movie_id list_type current_user].
  - destruct (register_user_lists s uuid created_at salt now user_data) as [El Em].
    repeat split.
    + intros u m t. unfold membership_count. rewrite El. apply Hu.
    + by apply register_wf.
    + unfold movies_wf. by rewrite Em.
    + unfold user_lists_wf. by rewrite El.
  - unfold create_movie. destruct (Movie_encodable _); [|done].
    repeat split; try done.
    unfold movies_wf, insert_one. simpl.
    apply Forall_app. split; [done|]. apply Forall_singleton. eauto.
  - destruct (add_to_list_others s uuid now movie_id list_type current_user) as [Eu Em].
    repeat split.
    + by apply add_to_list_unique.
    + unfold users_wf. by rewrite Eu.
    + unfold movies_wf. by rewrite Em.
    + by apply add_to_list_wf.
  - destruct (remove_from_list_others s movie_id list_type current_user) as [Eu Em].
    repeat split.
    + by apply remove_from_list_unique.
    + unfold users_wf. by rewrite Eu.
    + unfold movies_wf. by rewrite Em.
    + by apply remove_from_list_wf.
Qed.

Lemma reachable_invariant s : reachable s → invariant s.
Proof.
  induction 1 as [|s s' _ IH Hstep]; [apply invariant_empty|].
  by eapply invariant_step.
Qed.

End Reachable.

(** ** Queries on one field *)

Lemma matches_field k v d :
  matches [(k, CEq v)] d = bool_decide (d !! k = Some v).
Proof.
  unfold matches, field_matches. simpl. destruct (d !! k) as [w|]; simpl.
  - rewrite andb_true_r. apply bool_decide_ext. naive_solver.
  - done.
Qed.

Lemma find_one_field_None col k v :
  find_one col [(k, CEq v)] = None ↔
  existsb (fun d : Doc => bool_decide (d !! k = Some v)) col = false.
Proof.
  unfold find_one. induction col as [|d col IH]; [done|].
  cbn [List.find existsb]. rewrite matches_field.
  destruct (bool_decide _); simpl; [split; discriminate | exact IH].
Qed.

Lemma find_one_field_Some col k v :
  existsb (fun d : Doc => bool_decide (d !! k = Some v)) col = true →
  ∃ d, find_one col [(k, CEq v)] = Some d ∧ d ∈ col ∧ d !! k = Some v.
Proof.
  intros Hex. destruct (find_one col [(k, CEq v)]) as [d|] eqn:Hf.
  - exists d. split; [done|]. apply find_one_Some_matches in Hf as [Hin Hm].
    split; [done|]. rewrite matches_field in Hm. by apply bool_decide_eq_true in Hm.
  - apply find_one_field_None in Hf. congruence.
Qed.

(** ** User lists *)

Section Lists.

Context `{libs : Libraries}.

(** C1. In every state reachable from the empty database, each triple
    (user, movie, list type) has at most one membership record in
    [db.user_lists], and [add_to_list] on a triple that has a record
    raises "Already in list" and stores nothing. *)
Theorem membership_uniqueness (s : DB) :
  reachable s →
  ∀ u m t,
    (membership_count s u m t ≤ 1)%nat ∧
    ∀ uuid now cu,
      User_id cu = u → (1 ≤ membership_count s u m t)%nat →
      add_to_list s uuid now m t cu =
        (s, Raise (HTTPException 400 "Already in list")).
Proof.
  intros Hr u m t. split.
  - by apply reachable_invariant.
  - intros uuid now cu <- Hc. unfold membership_count in Hc.
    destruct (find_one (user_lists s) (membership_query (User_id cu) m t))
      as [d|] eqn:Hf.
    + by eapply add_to_list_refuses.
    + apply find_one_None in Hf. rewrite Hf in Hc. simpl in Hc. lia.
Qed.

Lemma add_to_list_Ok s uuid now m t cu s' msg :
  add_to_list s uuid now m t cu = (s', Ok msg) →
  find_one (user_lists s) (membership_query (User_id cu) m t) = None ∧
  s' = set_user_lists s
         (insert_one (user_lists s)
            (UserList_dict {| UserList_id := uuid; UserList_user_id := User_id cu;
                              UserList_movie_id := m; UserList_list_type := t;
                              UserList_created_at := now |})).
Proof.
  unfold add_to_list. destruct (find_one _ _); [discriminate|].
  intros [= <- _]. done.
Qed.

(** C4. A successful [add_to_list] followed by the same add raises
    "Already in list" (400) and leaves the state alone; in a reachable
    state a successful [remove_from_list] followed by the same remove
    raises "Item not found in list" (404). *)
Theorem duplicate_add_double_remove :
  (∀ s uuid now m t cu s' msg uuid' now',
      add_to_list s uuid now m t cu = (s', Ok msg) →
      add_to_list s' uuid' now' m t cu =
        (s', Raise (HTTPException 400 "Already in list"))) ∧
  (∀ s m t cu s' msg,
      reachable s →
      remove_from_list s m t cu = (s', Ok msg) →
      remove_from_list s' m t cu =
        (s', Raise (HTTPException 404 "Item not found in list"))).
Proof.
  split.
  - intros s uuid now m t cu s' msg uuid' now' Hadd.
    apply add_to_list_Ok in Hadd as [Hnone ->].
    unfold add_to_list at 1. simpl. unfold insert_one.
    rewrite find_one_app, Hnone.
    by rewrite (proj2 (matches_membership _ _ _ _)).
  - intros s m t cu s' msg Hr Hrem.
    set (q := membership_query (User_id cu) m t).
    assert (Hlen := delete_one_length (user_lists s) q).
    assert (Hcnt := delete_one_count (user_lists s) q).
    assert (Hu : (length (find (user_lists s) q) ≤ 1)%nat)
      by apply (reachable_invariant s Hr).
    unfold remove_from_list in Hrem. fold q in Hrem.
    destruct (Z.eqb_spec (delete_one (user_lists s) q).2 0) as [|Hne];
      [discriminate|].
    injection Hrem as <- _.
    unfold remove_from_list. simpl. fold q.
    assert (Hnil : find (delete_one (user_lists s) q).1 q = [])
      by (apply length_zero_iff_nil; lia).
    apply delete_one_zero in Hnil as Hz. rewrite Hz. simpl.
    by rewrite (delete_one_zero_id _ _ Hz).
Qed.

End Lists.

(** ** Registration, login and the current user *)

Section Authentication.

Context `{libs : Libraries}.

Lemma register_fresh s uuid c salt now ud :
  email_registered s (UserCreate_email ud) = false →
  register s uuid c salt now ud =
    (set_users s
       (insert_one (users s)
          (<["password_hash" := VStr (hash_password salt (UserCreate_password ud))]>
             (User_dict {| User_id := uuid; User_email := UserCreate_email ud;
                           User_name := UserCreate_name ud;
                           User_created_at := c |}))),
     Ok {| resp_user := {| User_id := uuid; User_email := UserCreate_email ud;
                           User_name := UserCreate_name ud;
                           User_created_at := c |};
           resp_token := create_jwt_token now uuid;
           resp_message := "Registration successful" |}).
Proof.
  intros Hfree. apply find_one_field_None in Hfree.
  unfold register, email_query. by rewrite Hfree.
Qed.

(** C5. When some stored user has the email of the request, [register]
    raises "Email already registered" (400) whatever the password and
    the name are, and the database is the one it started from. *)
Theorem register_email_taken s uuid c salt now ud :
  email_registered s (UserCreate_email ud) = true →
  register s uuid c salt now ud =
    (s, Raise (HTTPException 400 "Email already registered")).
Proof.
  intros Htaken. apply find_one_field_Some in Htaken as (d & Hf & _).
  unfold register, email_query. by rewrite Hf.
Qed.

(** C6. [login] raises the same exception, status 401 with the detail
    "Invalid credentials", when no stored user has the email and when
    the password does not verify against the stored hash; in a
    reachable state this is the only way [login] fails. *)
Theorem login_failure_indistinguishable s now ld :
  (email_registered s (UserLogin_email ld) = false →
     login s now ld = Raise invalid_credentials) ∧
  (∀ d h,
     find_one (users s) (email_query (UserLogin_email ld)) = Some d →
     d !! "password_hash" = Some (VStr h) →
     verify_password (UserLogin_password ld) h = false →
     login s now ld = Raise invalid_credentials) ∧
  (reachable s →
     (∃ r, login s now ld = Ok r) ∨ login s now ld = Raise invalid_credentials).
Proof.
  split; [|split].
  - intros Hno. apply find_one_field_None in Hno.
    unfold login, email_query. by rewrite Hno.
  - intros d h Hf Hh Hv. unfold login, email_query in *.
    rewrite Hf, Hh. simpl. by rewrite Hv.
  - intros Hr. unfold login.
    destruct (find_one _ _) as [d|] eqn:Hf; [|by right].
    apply find_one_Some_matches in Hf as [Hin _].
    destruct (reachable_invariant s Hr) as (_ & Hw & _).
    unfold users_wf in Hw. rewrite Forall_forall in Hw.
    destruct (Hw d Hin) as (u & h & -> & _).
    rewrite lookup_insert_eq. simpl.
    destruct (verify_password _ h); simpl; [|by right].
    rewrite User_of_stored. simpl. left. eauto.
Qed.

Lemma find_one_app_l col extra q d :
  find_one col q = Some d → find_one (col ++ extra) q = Some d.
Proof.
  unfold find_one. induction col as [|x col IH]; simpl; [discriminate|].
  by destruct (matches q x).
Qed.

Lemma step_users_grow s s' : step s s' → ∃ extra, users s' = users s ++ extra.
Proof.
  destruct 1.
  - unfold register. destruct (find_one _ _); simpl.
    + exists []. by rewrite app_nil_r.
    + by eexists.
  - exists []. rewrite app_nil_r. unfold create_movie.
    by destruct (Movie_encodable _).
  - exists []. rewrite app_nil_r. apply add_to_list_others.
  - exists []. rewrite app_nil_r. apply remove_from_list_others.
Qed.

Lemma steps_users_grow s s' : rtc step s s' → ∃ extra, users s' = users s ++ extra.
Proof.
  induction 1 as [s|s s1 s2 Hstep _ [extra2 IH]].
  - exists []. by rewrite app_nil_r.
  - destruct (step_users_grow _ _ Hstep) as [extra1 H1].
    exists (extra1 ++ extra2). by rewrite IH, H1, app_assoc.
Qed.

(** C3. For an email that no stored user has and a password whose hash
    verifies, [register] succeeds, and a [login] with the same email and
    password succeeds in the state it leaves and in every state that
    later requests lead to; both return the same user, hence the same
    identifier. *)
Theorem register_login_round_trip s uuid c salt now ud :
  email_registered s (UserCreate_email ud) = false →
  verify_accepts_hash salt (UserCreate_password ud) →
  ∃ s' r,
    register s uuid c salt now ud = (s', Ok r) ∧
    ∀ s'' now',
      rtc step s' s'' →
      ∃ r',
        login s'' now'
          {| UserLogin_email := UserCreate_email ud;
             UserLogin_password := UserCreate_password ud |} = Ok r' ∧
        User_id (resp_user r') = User_id (resp_user r) ∧
        resp_user r' = resp_user r.
Proof.
  intros Hfree Hv. rewrite (register_fresh _ _ _ _ _ _ Hfree).
  do 2 eexists. split; [reflexivity|].
  intros s'' now' Hsteps.
  apply steps_users_grow in Hsteps as [extra Husers].
  apply find_one_field_None in Hfree.
  unfold login, email_query. rewrite Husers. simpl. unfold insert_one.
  erewrite find_one_app_l; last first.
  { rewrite find_one_app, Hfree, matches_field.
    rewrite bool_decide_true by (by destruct ud). reflexivity. }
  rewrite lookup_insert_eq. simpl.
  unfold verify_accepts_hash in Hv. unfold verify_password, hash_password.
  rewrite Hv. simpl. rewrite User_of_stored. simpl. eauto.
Qed.

(** The two [except] clauses of [get_current_user]. *)
Lemma get_current_user_expired s now token :
  jwt_decode token JWT_SECRET [JWT_ALGORITHM] now = Raise ExpiredSignatureError →
  get_current_user s now token = Raise (HTTPException 401 "Token expired").
Proof. intros Hd. unfold get_current_user, get_current_user_try. by rewrite Hd. Qed.

Lemma get_current_user_invalid s now token :
  jwt_decode token JWT_SECRET [JWT_ALGORITHM] now = Raise InvalidTokenError →
  get_current_user s now token = Raise (HTTPException 401 "Invalid token").
Proof. intros Hd. unfold get_current_user, get_current_user_try. by rewrite Hd. Qed.

Lemma stored_user_id (d : Doc) u h uid :
  d = <["password_hash" := VStr h]> (User_dict u) →
  d !! "id" = Some (VStr uid) → User_id u = uid.
Proof. intros -> Hid. destruct u. by injection Hid. Qed.

(** A token made by [create_jwt_token] at time [T] for the identifier of
    a stored user. *)
Lemma token_window_stored_user s uid T now :
  reachable s →
  user_exists s uid = true →
  uid ≠ "" →
  jwt_round_trip uid (T + timedelta_hours JWT_EXPIRATION) now →
  ((now < token_expiry T)%Z →
     ∃ u, get_current_user s now (create_jwt_token T uid) = Ok u ∧
          User_id u = uid) ∧
  ((token_expiry T ≤ now)%Z →
     get_current_user s now (create_jwt_token T uid) =
       Raise (HTTPException 401 "Token expired")).
Proof.
  intros Hr Hex Hne Hjwt.
  unfold jwt_round_trip in Hjwt.
  change (jwt_encode _ _ _) with (create_jwt_token T uid) in Hjwt.
  fold (token_expiry T) in Hjwt.
  split; intros Hnow.
  - destruct (Z.leb_spec (token_expiry T) now) as [|_]; [lia|].
    destruct Hjwt as (claims & Hdec & Hsub).
    apply find_one_field_Some in Hex as (d & Hf & Hin & Hid).
    destruct (reachable_invariant s Hr) as (_ & Hw & _).
    unfold users_wf in Hw. rewrite Forall_forall in Hw.
    destruct (Hw d Hin) as (u & h & Hd & _).
    exists u. split; [|by eapply stored_user_id].
    unfold get_current_user, get_current_user_try.
    rewrite Hdec. simpl. rewrite Hsub. simpl.
    destruct (String.eqb_spec uid "") as [|_]; [done|]. simpl.
    rewrite Hf. simpl. rewrite Hd, User_of_stored. done.
  - destruct (Z.leb_spec (token_expiry T) now) as [_|]; [|lia].
    by apply get_current_user_expired.
Qed.

Lemma token_expiry_bounds T :
  (token_expiry T ≤ T + timedelta_hours JWT_EXPIRATION < token_expiry T + 1000000)%Z.
Proof.
  unfold token_expiry, whole_second.
  pose proof (Z.div_mod (T + timedelta_hours JWT_EXPIRATION) 1000000).
  pose proof (Z.mod_pos_bound (T + timedelta_hours JWT_EXPIRATION) 1000000).
  lia.
Qed.

Lemma token_expiry_whole T :
  (T mod 1000000 = 0)%Z → token_expiry T = (T + timedelta_hours JWT_EXPIRATION)%Z.
Proof.
  intros Hw. unfold token_expiry, whole_second, timedelta_hours, JWT_EXPIRATION.
  pose proof (Z.div_mod T 1000000).
  replace T with (T / 1000000 * 1000000)%Z at 1 by lia.
  replace (T / 1000000 * 1000000 + 24 * 3600 * 1000000)%Z
    with ((T / 1000000 + 24 * 3600) * 1000000)%Z by lia.
  rewrite Z.div_mul by done. lia.
Qed.

Lemma reachable_steps s s' : reachable s → rtc step s s' → reachable s'.
Proof.
  intros Hr Hsteps. induction Hsteps as [|s s1 s2 Hstep _ IH]; [done|].
  apply IH. by eapply reachable_step.
Qed.

Lemma user_exists_elem s (d : Doc) uid :
  d ∈ users s → d !! "id" = Some (VStr uid) → user_exists s uid = true.
Proof.
  intros Hin Hid. unfold user_exists. apply existsb_exists.
  exists d. split; [by apply list_elem_of_In | by apply bool_decide_eq_true].
Qed.

Lemma user_exists_steps s s' uid :
  rtc step s s' → user_exists s uid = true → user_exists s' uid = true.
Proof.
  intros Hsteps Hex. apply steps_users_grow in Hsteps as [extra Hu].
  unfold user_exists in *. rewrite Hu, existsb_app, Hex. done.
Qed.

Lemma login_Ok s now ld r :
  login s now ld = Ok r →
  resp_token r = create_jwt_token now (User_id (resp_user r)) ∧
  ∃ d, d ∈ users s ∧ User_of d = Some (resp_user r).
Proof.
  unfold login. destruct (find_one _ _) as [d|] eqn:Hf; [|discriminate].
  apply find_one_Some_matches in Hf as [Hin _].
  destruct (d !! "password_hash") as [v|]; simpl; [|discriminate].
  destruct (as_str v); simpl; [|discriminate].
  destruct (verify_password _ _); simpl; [|discriminate].
  destruct (User_of d) as [u|] eqn:Hu; simpl; [|discriminate].
  intros [= <-]. simpl. eauto.
Qed.

(** What [issued] gives: the token is the one [create_jwt_token] makes
    for an identifier that is not empty and that a stored user has. *)
Lemma issued_token s T token uid s' :
  reachable s → issued s T token uid s' →
  reachable s' ∧ token = create_jwt_token T uid ∧
  uid ≠ "" ∧ user_exists s' uid = true.
Proof.
  intros Hr [(uuid & c & salt & ud & r & Hne & Hreg & -> & ->)
            |(ld & r & Hlogin & -> & -> & ->)].
  - assert (Hs' : s' = (register s uuid c salt T ud).1) by (by rewrite Hreg).
    split; [rewrite Hs'; eapply reachable_step; [done | by constructor]|].
    unfold register in Hreg. destruct (find_one _ _); [discriminate|].
    injection Hreg as <- <-. simpl. split; [done|]. split; [done|].
    eapply user_exists_elem.
    + simpl. apply elem_of_app. right. apply list_elem_of_singleton. reflexivity.
    + reflexivity.
  - split; [done|].
    apply login_Ok in Hlogin as (Htok & d & Hin & Hu).
    split; [done|].
    destruct (reachable_invariant s Hr) as (_ & Hw & _).
    unfold users_wf in Hw. rewrite Forall_forall in Hw.
    destruct (Hw d Hin) as (u & h & -> & Hne).
    rewrite User_of_stored in Hu. injection Hu as <-.
    split; [done|]. eapply user_exists_elem; [done|]. by destruct u.
Qed.

(** C2, as the code has it.  The token carries its expiry in whole
    seconds, so a token that [register] or [login] hands out at time [T]
    expires at [token_expiry T], which is [T + 24h] cut down to a whole
    second.  [get_current_user] accepts the token, and resolves it to the
    user it was issued for, at every time in [T, token_expiry T), and
    raises "Token expired" (401) at every time from [token_expiry T] on,
    hence at every time from [T + 24h] on; this holds in the state the
    token was issued in and in every later one.  When [T] is on a whole
    second the window is [T, T + 24h), and it is never a second shorter
    than that.  Times are in microseconds. *)
Theorem token_validity_window s T token uid s' s'' now :
  reachable s →
  issued s T token uid s' →
  rtc step s' s'' →
  jwt_round_trip uid (T + timedelta_hours JWT_EXPIRATION) now →
  ((T ≤ now < token_expiry T)%Z →
     ∃ u, get_current_user s'' now token = Ok u ∧ User_id u = uid) ∧
  ((token_expiry T ≤ now)%Z →
     get_current_user s'' now token =
       Raise (HTTPException 401 "Token expired")) ∧
  ((T + 24 * 3600 * 1000000 ≤ now)%Z →
     get_current_user s'' now token =
       Raise (HTTPException 401 "Token expired")) ∧
  ((T mod 1000000 = 0)%Z → token_expiry T = (T + 24 * 3600 * 1000000)%Z) ∧
  (T + 24 * 3600 * 1000000 - 1000000 < token_expiry T ≤ T + 24 * 3600 * 1000000)%Z.
Proof.
  intros Hr Hissued Hsteps Hjwt.
  destruct (issued_token _ _ _ _ _ Hr Hissued) as (Hr' & -> & Hne & Hex).
  destruct (token_window_stored_user s'' uid T now) as [Hin Hout]; try done.
  { by eapply reachable_steps. }
  { by eapply user_exists_steps. }
  pose proof (token_expiry_bounds T) as Hb.
  change (timedelta_hours JWT_EXPIRATION) with (24 * 3600 * 1000000)%Z in Hb.
  split; [|split; [|split; [|split]]].
  - intros Hnow. apply Hin. lia.
  - exact Hout.
  - intros Hnow. apply Hout. lia.
  - apply token_expiry_whole.
  - lia.
Qed.

Lemma find_one_claim_Some col field v (d : Doc) :
  find_one_claim col field v = Ok (Some d) → d ∈ col.
Proof.
  assert (Hfind : ∀ p, List.find p col = Some d → d ∈ col).
  { intros p Hp. apply find_some in Hp as [Hin _]. by apply list_elem_of_In. }
  unfold find_one_claim.
  destruct v; try by (destruct (mongo_field_cond _ _); simpl; [|done];
                       intros [= Hp]; eapply Hfind).
  intros [= Hp]. by apply find_one_Some_matches in Hp as [Hin _].
Qed.

Lemma get_current_user_Ok s now token u :
  get_current_user s now token = Ok u →
  ∃ d, d ∈ users s ∧ User_of d = Some u.
Proof.
  unfold get_current_user, get_current_user_try.
  destruct (jwt_decode _ _ _ _) as [claims|e]; simpl; [|by destruct e].
  destruct (claims !! "user_id") as [uid|]; [|done].
  destruct (Json_truthy uid); [|done].
  destruct (find_one_claim _ _ _) as [[d|]|e] eqn:Hf; simpl;
    [| done | by destruct e].
  apply find_one_claim_Some in Hf.
  destruct (User_of d) as [u'|] eqn:Hu; simpl; [|done].
  intros [= <-]. eauto.
Qed.

(** C8. The user in the response of a successful [register], [login] or
    [get_me] has exactly the fields [id], [email], [name] and
    [created_at]: no [password_hash], although the stored document it
    was read from, or written as, has one. *)
Theorem password_hash_not_exposed :
  (∀ s uuid c salt now ud s' r,
      register s uuid c salt now ud = (s', Ok r) →
      dom (User_dict (resp_user r)) = User_fields ∧
      User_dict (resp_user r) !! "password_hash" = None ∧
      ∃ d, d ∈ users s' ∧ User_of d = Some (resp_user r) ∧
           is_Some (d !! "password_hash")) ∧
  (∀ s now ld r,
      login s now ld = Ok r →
      dom (User_dict (resp_user r)) = User_fields ∧
      User_dict (resp_user r) !! "password_hash" = None ∧
      ∃ d, d ∈ users s ∧ User_of d = Some (resp_user r) ∧
           is_Some (d !! "password_hash")) ∧
  (∀ s now token u,
      get_me s now token = Ok u →
      dom (User_dict u) = User_fields ∧
      User_dict u !! "password_hash" = None ∧
      ∃ d, d ∈ users s ∧ User_of d = Some u).
Proof.
  split; [|split].
  - intros s uuid c salt now ud s' r. unfold register.
    destruct (find_one _ _); [discriminate|].
    intros [= <- <-]. simpl. split; [done|]. split; [done|].
    eexists. split; [apply elem_of_app; right; apply list_elem_of_singleton; reflexivity|].
    split; [apply User_of_stored | by rewrite lookup_insert_eq].
  - intros s now ld r. unfold login.
    destruct (find_one _ _) as [d|] eqn:Hf; [|discriminate].
    apply find_one_Some_matches in Hf as [Hin _].
    destruct (d !! "password_hash") as [v|] eqn:Hh; simpl; [|discriminate].
    destruct (as_str v); simpl; [|discriminate].
    destruct (verify_password _ _); simpl; [|discriminate].
    destruct (User_of d) as [u|] eqn:Hu; simpl; [|discriminate].
    intros [= <-]. simpl. split; [done|]. split; [done|]. exists d. by rewrite Hh.
  - intros s now token u Hme. split; [done|]. split; [done|].
    by eapply get_current_user_Ok.
Qed.

End Authentication.

(** ** Listing a user's movies *)

Lemma for_each_Ok {A B} (f : A → Result B) (l : list A) :
  Forall (fun a => ∃ b, f a = Ok b) l →
  ∃ bs, for_each f l = Ok bs ∧ Forall2 (fun a b => f a = Ok b) l bs.
Proof.
  induction 1 as [|a l [b Hb] _ (bs & Hbs & IH)]; simpl.
  - exists []. by split; [|constructor].
  - exists (b :: bs). rewrite Hb. simpl. rewrite Hbs. simpl.
    by split; [|constructor].
Qed.

Lemma filter_filter_implied {A} (f g : A → bool) (l : list A) :
  (∀ x, x ∈ l → f x = true → g x = true) →
  List.filter f (List.filter g l) = List.filter f l.
Proof.
  induction l as [|x l IH]; intros Himp; simpl; [done|].
  assert (Hl : ∀ y, y ∈ l → f y = true → g y = true)
    by (intros y Hy; apply Himp; by right).
  destruct (g x) eqn:Hg; simpl.
  - destruct (f x); by rewrite IH.
  - destruct (f x) eqn:Hf; [|by rewrite IH].
    rewrite Himp in Hg; [done | by left | done].
Qed.

Lemma matches_in k vs v d :
  d !! k = Some v → v ∈ vs → matches [(k, CIn vs)] d = true.
Proof.
  intros Hk Hin. unfold matches, field_matches. simpl. rewrite Hk. simpl.
  by rewrite bool_decide_true.
Qed.

Lemma count_movie_parsed m (docs : list Doc) (ms : list Movie) :
  Forall (fun d : Doc => ∃ x, d = Movie_dict x) docs →
  Forall2 (fun d x => or_raise ValidationError (Movie_of d) = Ok x) docs ms →
  count_movie m ms = length (find docs [("id", CEq (VStr m))]).
Proof.
  unfold count_movie, find. intros Hwf H2.
  induction H2 as [|d x docs ms Hx _ IH]; [done|].
  apply Forall_cons in Hwf as [[x' ->] Hwf].
  rewrite Movie_of_dict in Hx. simpl in Hx. injection Hx as ->.
  cbn [List.filter]. rewrite matches_field.
  change (Movie_dict x !! "id") with (Some (VStr (Movie_id x))).
  rewrite (bool_decide_ext (Some (VStr (Movie_id x)) = Some (VStr m)) (Movie_id x = m))
    by (split; [by intros [= ->] | by intros ->]).
  destruct (bool_decide (Movie_id x = m)); simpl; by rewrite IH.
Qed.

Section Listing.

Context `{libs : Libraries}.

(** What [get_user_list] returns in a state whose documents were all
    written by the handlers: it does not raise, and a movie identifier
    that one of the user's records of that list type refers to occurs
    as often as the catalogue has a document with it. *)
Lemma get_user_list_count s t cu m (item : Doc) :
  user_lists_wf s → movies_wf s →
  item ∈ user_lists s →
  matches [("user_id", CEq (VStr (User_id cu))); ("list_type", CEq (VStr t))] item = true →
  item !! "movie_id" = Some (VStr m) →
  ∃ ms, get_user_list s t cu = Ok ms ∧ count_movie m ms = catalogue_count s m.
Proof.
  intros Hl Hm Hin Hmatch Hmid. unfold get_user_list.
  set (q := [("user_id", CEq (VStr (User_id cu))); ("list_type", CEq (VStr t))]) in *.
  destruct (for_each_Ok
              (fun item : Doc => or_raise (KeyError "movie_id") (item !! "movie_id"))
              (find (user_lists s) q)) as (ids & Hids & Hall).
  { apply Forall_forall. intros d Hd.
    unfold find in Hd. apply list_elem_of_In, List.filter_In in Hd as [Hd _].
    apply list_elem_of_In in Hd.
    unfold user_lists_wf in Hl. rewrite Forall_forall in Hl.
    destruct (Hl d Hd) as [l ->]. by eexists. }
  rewrite Hids. simpl.
  assert (Hmem : VStr m ∈ ids).
  { assert (Hfound : item ∈ find (user_lists s) q).
    { apply list_elem_of_In, List.filter_In. split; [by apply list_elem_of_In | done]. }
    apply list_elem_of_lookup in Hfound as [i Hi].
    destruct (Forall2_lookup_l _ _ _ _ _ Hall Hi) as (v & Hv & Hitem).
    rewrite Hmid in Hitem. simpl in Hitem. injection Hitem as <-.
    by eapply list_elem_of_lookup_2. }
  assert (Hsub : Forall (fun d : Doc => ∃ x, d = Movie_dict x)
                   (find (movies s) [("id", CIn ids)])).
  { apply Forall_forall. intros d Hd.
    unfold find in Hd. apply list_elem_of_In, List.filter_In in Hd as [Hd _].
    apply list_elem_of_In in Hd.
    unfold movies_wf in Hm. rewrite Forall_forall in Hm. by apply Hm. }
  destruct (for_each_Ok
              (fun movie : Doc => or_raise ValidationError (Movie_of movie))
              (find (movies s) [("id", CIn ids)])) as (ms & Hms & Hparsed).
  { eapply Forall_impl; [exact Hsub|]. intros d [x ->].
    rewrite Movie_of_dict. by eexists. }
  exists ms. split; [done|].
  rewrite (count_movie_parsed m _ _ Hsub Hparsed).
  unfold catalogue_count, find. f_equal.
  apply filter_filter_implied. intros d _ Hd.
  rewrite matches_field in Hd. apply bool_decide_eq_true in Hd.
  by eapply matches_in.
Qed.

(** C7, as the code has it.  After a successful
    [add_to_list] of [m] to "favorites" in a reachable state,
    [get_user_list] for "favorites" succeeds and the movie identifier
    [m] occurs in its result as often as [db.movies] has a document with
    that identifier: once when the catalogue has exactly one such
    movie, never when it has none. *)
Theorem add_then_list s uuid now m cu s' msg :
  reachable s →
  add_to_list s uuid now m "favorites" cu = (s', Ok msg) →
  ∃ ms, get_user_list s' "favorites" cu = Ok ms ∧
        count_movie m ms = catalogue_count s' m ∧
        (catalogue_count s' m = 1%nat → count_movie m ms = 1%nat).
Proof.
  intros Hr Hadd.
  assert (Hr' : reachable s').
  { eapply reachable_step; [exact Hr|].
    replace s' with (add_to_list s uuid now m "favorites" cu).1
      by (by rewrite Hadd).
    constructor. }
  destruct (reachable_invariant s' Hr') as (_ & _ & Hm & Hl).
  apply add_to_list_Ok in Hadd as [_ Hs'].
  edestruct (get_user_list_count s' "favorites" cu m) as (ms & Hms & Hc);
    [exact Hl | exact Hm | | | | ].
  - rewrite Hs'. simpl. unfold insert_one. apply elem_of_app. right.
    apply list_elem_of_singleton. reflexivity.
  - unfold matches, field_matches. cbn [forallb fst snd].
    change (UserList_dict _ !! "user_id") with (Some (VStr (User_id cu))).
    change (UserList_dict _ !! "list_type") with (Some (VStr "favorites")).
    cbn [cond_holds]. by rewrite !bool_decide_true.
  - reflexivity.
  - exists ms. split; [done|]. split; [done|]. congruence.
Qed.

End Listing.

(** ** The sample instance meets the expectations *)

Module SampleFacts.

Import Sample.

Lemma split_dot_app d u :
  split_dot d = None → split_dot (d +:+ "." +:+ u) = Some (d, u).
Proof.
  induction d as [|c d IH]; simpl; [done|].
  destruct (Ascii.eqb c "."); [discriminate|].
  destruct (split_dot d) as [[a b]|]; [discriminate|].
  intros _. by rewrite IH.
Qed.

Lemma split_dot_uint d : split_dot (DecimalString.NilEmpty.string_of_uint d) = None.
Proof. induction d; simpl; by rewrite ?IHd. Qed.

Lemma split_dot_int d : split_dot (DecimalString.NilEmpty.string_of_int d) = None.
Proof. destruct d; simpl; by rewrite split_dot_uint. Qed.

Lemma decode_encode uid exp now :
  decode (encode (token_payload uid exp) "netflix-secret-key-123" JWT_ALGORITHM)
         "netflix-secret-key-123" [JWT_ALGORITHM] now =
  if (whole_second exp <=? now)%Z then Raise ExpiredSignatureError
  else Ok (<["user_id" := JStr uid]> (<["exp" := JInt (exp / 1000000)]> ∅)).
Proof.
  unfold decode, encode.
  change (token_payload uid exp !! "exp") with (Some (VDate exp)).
  change (token_payload uid exp !! "user_id") with (Some (VStr uid)).
  cbv beta iota.
  rewrite split_dot_app by apply split_dot_int.
  rewrite DecimalString.NilEmpty.isi, DecimalZ.of_to. done.
Qed.

Lemma jwt_round_trip_sample uid exp now :
  jwt_round_trip (libs := libraries) uid exp now.
Proof.
  unfold jwt_round_trip. cbn [JWT_SECRET jwt_decode jwt_encode libraries].
  rewrite decode_encode. destruct (whole_second exp <=? now)%Z; [done|].
  eexists. split; [reflexivity|]. apply lookup_insert_eq.
Qed.

Lemma db1_reachable : reachable (libs := libraries) db1.
Proof. eapply reachable_step; [apply reachable_empty | by apply step_register]. Qed.

Lemma db2_reachable : reachable (libs := libraries) db2.
Proof. eapply reachable_step; [apply db1_reachable | apply step_create_movie]. Qed.

Lemma db3_reachable : reachable (libs := libraries) db3.
Proof. eapply reachable_step; [apply db2_reachable | apply step_add_to_list]. Qed.

End SampleFacts.

(** ** The theorems on the sample database *)

(** Both sides are closed terms: run the handlers and compare. *)
Ltac compute_eq := vm_compute; reflexivity.

(** Alice's record for The Matrix on "favorites" is the only one, and a
    second add of it is refused. *)
Lemma membership_uniqueness_witness :
  reachable (libs := Sample.libraries) Sample.db3 ∧
  (membership_count Sample.db3 "u-1" "m-1" "favorites" ≤ 1)%nat ∧
  add_to_list Sample.db3 "l-2" 1003 "m-1" "favorites" Sample.alice_user =
    (Sample.db3, Raise (HTTPException 400 "Already in list")).
Proof.
  split; [exact SampleFacts.db3_reachable|].
  destruct (membership_uniqueness (libs := Sample.libraries) Sample.db3
              SampleFacts.db3_reachable "u-1" "m-1" "favorites") as [Hle Hadd].
  split; [exact Hle|].
  apply Hadd; [reflexivity | vm_compute; apply le_n].
Defined.

Lemma duplicate_add_double_remove_witness :
  add_to_list Sample.db3 "l-2" 1003 "m-1" "favorites" Sample.alice_user =
    (Sample.db3, Raise (HTTPException 400 "Already in list")) ∧
  remove_from_list Sample.db2 "m-1" "favorites" Sample.alice_user =
    (Sample.db2, Raise (HTTPException 404 "Item not found in list")).
Proof.
  destruct (duplicate_add_double_remove (libs := Sample.libraries)) as [Hadd Hrem].
  split.
  - apply (Hadd Sample.db2 "l-1" 1002 "m-1" "favorites" Sample.alice_user
             Sample.db3 "Added to favorites" "l-2" 1003).
    compute_eq.
  - apply (Hrem Sample.db3 "m-1" "favorites" Sample.alice_user
             Sample.db2 "Removed from favorites").
    + exact SampleFacts.db3_reachable.
    + compute_eq.
Defined.

Lemma register_email_taken_witness :
  email_registered Sample.db1 "alice@example.com" = true ∧
  register (libs := Sample.libraries) Sample.db1 "u-2" 1005 "pepper" 1005
    {| UserCreate_email := "alice@example.com";
       UserCreate_password := "another";
       UserCreate_name := "Not Alice" |} =
    (Sample.db1, Raise (HTTPException 400 "Email already registered")).
Proof.
  split; [compute_eq|].
  apply (register_email_taken (libs := Sample.libraries)).
  compute_eq.
Defined.

Lemma login_failure_indistinguishable_witness :
  login (libs := Sample.libraries) Sample.db1 2000000000 Sample.bob_login =
    Raise invalid_credentials ∧
  login (libs := Sample.libraries) Sample.db1 2000000000 Sample.alice_wrong_password =
    Raise invalid_credentials ∧
  ((∃ r, login (libs := Sample.libraries) Sample.db1 2000000000 Sample.alice_login = Ok r) ∨
   login (libs := Sample.libraries) Sample.db1 2000000000 Sample.alice_login =
     Raise invalid_credentials).
Proof.
  split; [|split].
  - apply (login_failure_indistinguishable (libs := Sample.libraries)
             Sample.db1 2000000000 Sample.bob_login).
    compute_eq.
  - apply (proj1 (proj2 (login_failure_indistinguishable (libs := Sample.libraries)
                           Sample.db1 2000000000 Sample.alice_wrong_password))
             Sample.alice_doc "salt$pw123").
    + compute_eq.
    + compute_eq.
    + compute_eq.
  - apply (login_failure_indistinguishable (libs := Sample.libraries)
             Sample.db1 2000000000 Sample.alice_login).
    exact SampleFacts.db1_reachable.
Defined.

(** Alice registers, a movie is added to the catalogue, and she logs in. *)
Lemma register_login_round_trip_witness :
  email_registered empty_db "alice@example.com" = false ∧
  verify_accepts_hash (libs := Sample.libraries) "salt" "pw123" ∧
  ∃ r',
    login (libs := Sample.libraries) Sample.db2 2000000000 Sample.alice_login = Ok r' ∧
    User_id (resp_user r') = "u-1" ∧
    resp_user r' = Sample.alice_user.
Proof.
  split; [reflexivity|]. split; [compute_eq|].
  destruct (register_login_round_trip (libs := Sample.libraries)
              empty_db "u-1" 1000 "salt" 1000900000 Sample.alice)
    as (s' & r & Hreg & Hlogin); [reflexivity | compute_eq |].
  injection Hreg as <- <-.
  apply (Hlogin Sample.db2 2000000000).
  apply rtc_once. apply step_create_movie.
Defined.

(** The token Alice gets when she registers at 1000.9 s, presented after
    a movie was added and put on her list: accepted at 2000 s, expired
    at 87400 s, the whole second its expiry was cut down to. *)
Lemma token_validity_window_witness :
  (∃ u, get_current_user (libs := Sample.libraries) Sample.db3 2000000000 "87400.u-1" = Ok u ∧
        User_id u = "u-1") ∧
  get_current_user (libs := Sample.libraries) Sample.db3 87400000000 "87400.u-1" =
    Raise (HTTPException 401 "Token expired").
Proof.
  assert (Hissued : issued (libs := Sample.libraries) empty_db 1000900000 "87400.u-1" "u-1"
                      Sample.db1).
  { left. exists "u-1", 1000%Z, "salt", Sample.alice, Sample.alice_registered.
    split; [discriminate|]. split; [compute_eq|]. split; reflexivity. }
  assert (Hsteps : rtc (step (libs := Sample.libraries)) Sample.db1 Sample.db3).
  { eapply rtc_l; [apply step_create_movie|]. apply rtc_once, step_add_to_list. }
  split.
  - apply (token_validity_window (libs := Sample.libraries)
             empty_db 1000900000 "87400.u-1" "u-1" Sample.db1 Sample.db3 2000000000).
    + apply reachable_empty.
    + exact Hissued.
    + exact Hsteps.
    + apply SampleFacts.jwt_round_trip_sample.
    + change (token_expiry 1000900000) with 87400000000%Z. lia.
  - apply (proj1 (proj2 (token_validity_window (libs := Sample.libraries)
             empty_db 1000900000 "87400.u-1" "u-1" Sample.db1 Sample.db3 87400000000
             reachable_empty Hissued Hsteps
             (SampleFacts.jwt_round_trip_sample _ _ _)))).
    change (token_expiry 1000900000) with 87400000000%Z. lia.
Defined.

(** C2, as the claim has it, fails.  Alice's token is issued at 1000.9 s;
    at 87400.5 s, inside [T, T + 24h), it is rejected as expired, because
    its expiry was cut down to 87400 s. *)
Lemma token_validity_window_counterexample :
  issued (libs := Sample.libraries) empty_db 1000900000 "87400.u-1" "u-1" Sample.db1 ∧
  (1000900000 ≤ 87400500000 < 1000900000 + 24 * 3600 * 1000000)%Z ∧
  get_current_user (libs := Sample.libraries) Sample.db1 87400500000 "87400.u-1" =
    Raise (HTTPException 401 "Token expired") ∧
  ¬ ∃ u, get_current_user (libs := Sample.libraries) Sample.db1 87400500000 "87400.u-1" =
           Ok u.
Proof.
  split.
  { left. exists "u-1", 1000%Z, "salt", Sample.alice, Sample.alice_registered.
    split; [discriminate|]. split; [compute_eq|]. split; reflexivity. }
  split; [lia|].
  assert (Hexp : get_current_user (libs := Sample.libraries) Sample.db1 87400500000
                   "87400.u-1" = Raise (HTTPException 401 "Token expired"))
    by compute_eq.
  split; [exact Hexp|]. intros [u Hu]. rewrite Hexp in Hu. discriminate.
Qed.

Lemma password_hash_not_exposed_witness :
  (dom (User_dict (resp_user Sample.alice_registered)) = User_fields ∧
   User_dict (resp_user Sample.alice_registered) !! "password_hash" = None ∧
   ∃ d, d ∈ users Sample.db1 ∧ User_of d = Some (resp_user Sample.alice_registered) ∧
        is_Some (d !! "password_hash")) ∧
  (dom (User_dict (resp_user Sample.alice_logged_in)) = User_fields ∧
   User_dict (resp_user Sample.alice_logged_in) !! "password_hash" = None ∧
   ∃ d, d ∈ users Sample.db1 ∧ User_of d = Some (resp_user Sample.alice_logged_in) ∧
        is_Some (d !! "password_hash")) ∧
  (dom (User_dict Sample.alice_user) = User_fields ∧
   User_dict Sample.alice_user !! "password_hash" = None ∧
   ∃ d, d ∈ users Sample.db1 ∧ User_of d = Some Sample.alice_user).
Proof.
  destruct (password_hash_not_exposed (libs := Sample.libraries))
    as (Hreg & Hlogin & Hme).
  split; [|split].
  - apply (Hreg empty_db "u-1" 1000 "salt" 1000900000 Sample.alice
             Sample.db1 Sample.alice_registered).
    compute_eq.
  - apply (Hlogin Sample.db1 2000000000 Sample.alice_login Sample.alice_logged_in).
    compute_eq.
  - apply (Hme Sample.db1 2000000000 "87400.u-1" Sample.alice_user).
    compute_eq.
Defined.

(** The Matrix is in the catalogue once, and once on Alice's list. *)
Lemma add_then_list_witness :
  ∃ ms, get_user_list Sample.db3 "favorites" Sample.alice_user = Ok ms ∧
        count_movie "m-1" ms = catalogue_count Sample.db3 "m-1" ∧
        (catalogue_count Sample.db3 "m-1" = 1%nat → count_movie "m-1" ms = 1%nat).
Proof.
  apply (add_then_list (libs := Sample.libraries) Sample.db2 "l-1" 1002 "m-1"
           Sample.alice_user Sample.db3 "Added to favorites").
  - exact SampleFacts.db2_reachable.
  - compute_eq.
Defined.

(** C7, as the claim has it, fails: no movie has the identifier "m-404",
    the add succeeds all the same, and the list that comes back is empty,
    so it does not contain that movie once. *)
Lemma add_then_list_counterexample :
  reachable (libs := Sample.libraries) Sample.db1 ∧
  (add_to_list Sample.db1 "l-1" 1002 "m-404" "favorites" Sample.alice_user).2 =
    Ok "Added to favorites" ∧
  get_user_list
    (add_to_list Sample.db1 "l-1" 1002 "m-404" "favorites" Sample.alice_user).1
    "favorites" Sample.alice_user = Ok [] ∧
  count_movie "m-404" [] ≠ 1%nat.
Proof.
  split; [exact SampleFacts.db1_reachable|].
  split; [compute_eq|].
  split; [compute_eq|].
  vm_compute. discriminate.
Qed.

(** C10 on the code: [add_to_list] stores a record whose list type is
    neither "favorites" nor "watched", and answers as for any other
    list type. *)
Lemma add_to_list_unchecked_list_type :
  let r := add_to_list Sample.db2 "l-9" 1002 "m-1" "bogus" Sample.alice_user in
  reachable (libs := Sample.libraries) r.1 ∧
  r.2 = Ok "Added to bogus" ∧
  membership_count r.1 "u-1" "m-1" "bogus" = 1%nat ∧
  ∃ d, d ∈ user_lists r.1 ∧ d !! "list_type" = Some (VStr "bogus").
Proof.
  split; [|split; [|split]].
  - eapply reachable_step; [apply SampleFacts.db2_reachable | apply step_add_to_list].
  - compute_eq.
  - compute_eq.
  - eexists. split; [apply list_elem_of_here|]. compute_eq.
Qed.

(** * Further properties of the handlers *)

(** ** Membership records *)

Lemma matches_membership_doc (d : Doc) u m t :
  matches (membership_query u m t) d = true ↔
  d !! "user_id" = Some (VStr u) ∧ d !! "movie_id" = Some (VStr m) ∧
  d !! "list_type" = Some (VStr t).
Proof.
  unfold matches, membership_query, field_matches. cbn [forallb fst snd].
  rewrite !andb_true_iff.
  destruct (d !! "user_id") as [a|], (d !! "movie_id") as [b|],
    (d !! "list_type") as [c|]; cbn [cond_holds];
    rewrite ?bool_decide_eq_true; intuition congruence.
Qed.

Lemma membership_query_disjoint (d : Doc) u m t u' m' t' :
  (u', m', t') ≠ (u, m, t) →
  matches (membership_query u m t) d = true →
  matches (membership_query u' m' t') d = false.
Proof.
  intros Hne Hm. apply matches_membership_doc in Hm as (Hu & Hmv & Ht).
  destruct (matches (membership_query u' m' t') d) eqn:Hm'; [|done].
  apply matches_membership_doc in Hm' as (Hu' & Hmv' & Ht').
  destruct Hne. congruence.
Qed.

Lemma delete_one_app_new col q (d : Doc) :
  find_one col q = None → matches q d = true →
  delete_one (col ++ [d]) q = (col, 1%Z).
Proof.
  unfold find_one. induction col as [|x col IH]; simpl; intros Hnone Hm.
  - by rewrite Hm.
  - destruct (matches q x); [discriminate|]. by rewrite IH.
Qed.

Lemma delete_one_find_other col q q' :
  (∀ d : Doc, matches q d = true → matches q' d = false) →
  find (delete_one col q).1 q' = find col q'.
Proof.
  intros Hdis. unfold find. induction col as [|x col IH]; simpl; [done|].
  destruct (matches q x) eqn:Hx; simpl.
  - by rewrite (Hdis x Hx).
  - by rewrite IH.
Qed.

Lemma set_user_lists_back s c : set_user_lists (set_user_lists s c) (user_lists s) = s.
Proof. by destruct s. Qed.

(** X1. Removing what was just added undoes the add: after a successful
    [add_to_list], the matching [remove_from_list] succeeds and the
    database is again the one before the add. *)
Theorem add_then_remove s uuid now m t cu s' msg :
  add_to_list s uuid now m t cu = (s', Ok msg) →
  remove_from_list s' m t cu = (s, Ok ("Removed from " +:+ t)).
Proof.
  unfold add_to_list. destruct (find_one _ _) eqn:Hnone; [discriminate|].
  intros [= <- _]. unfold remove_from_list, insert_one. cbn [user_lists set_user_lists].
  rewrite (delete_one_app_new _ _ _ Hnone)
    by (by apply matches_membership).
  cbn [fst snd]. change (1 =? 0)%Z with false. cbv iota.
  by destruct s.
Qed.

(** X2. A successful [add_to_list] happens exactly when the triple has no
    record; it gives the triple one record, leaves the number of records
    of every other triple as it was and does not touch the users or the
    catalogue. *)
Theorem add_to_list_effect s uuid now m t cu :
  let r := add_to_list s uuid now m t cu in
  (membership_count s (User_id cu) m t = 0%nat ↔ r.2 = Ok ("Added to " +:+ t)) ∧
  (r.2 = Ok ("Added to " +:+ t) →
     membership_count r.1 (User_id cu) m t = 1%nat ∧
     (∀ u' m' t', (u', m', t') ≠ (User_id cu, m, t) →
        membership_count r.1 u' m' t' = membership_count s u' m' t') ∧
     users r.1 = users s ∧ movies r.1 = movies s).
Proof.
  cbv zeta. unfold add_to_list, membership_count.
  destruct (find_one (user_lists s) _) as [d|] eqn:Hf; cbn [fst snd].
  - split; [|discriminate]. split; [|discriminate].
    intros Hz. apply length_zero_iff_nil, find_one_None in Hz. congruence.
  - apply find_one_None in Hf as Hnil. split; [by rewrite Hnil|].
    intros _. cbn [user_lists set_user_lists users movies]. unfold insert_one.
    split; [|split; [|done]].
    + rewrite find_app, Hnil. by rewrite (proj2 (matches_membership _ _ _ _)).
    + intros u' m' t' Hne. rewrite find_app, length_app.
      destruct (matches _ (UserList_dict _)) eqn:Hm; [|simpl; lia].
      apply matches_membership in Hm as (-> & -> & ->). by destruct Hne.
Qed.

(** X3. [remove_from_list] on a triple without a record raises "Item not
    found in list" (404) and leaves the database as it was; on a triple
    with records it succeeds, removes exactly one of them, keeps the
    records of every other triple and does not touch the users or the
    catalogue. *)
Theorem remove_from_list_effect s m t cu :
  let r := remove_from_list s m t cu in
  (membership_count s (User_id cu) m t = 0%nat →
     r = (s, Raise (HTTPException 404 "Item not found in list"))) ∧
  (membership_count s (User_id cu) m t ≠ 0%nat →
     r.2 = Ok ("Removed from " +:+ t) ∧
     S (membership_count r.1 (User_id cu) m t) = membership_count s (User_id cu) m t ∧
     (∀ u' m' t', (u', m', t') ≠ (User_id cu, m, t) →
        membership_count r.1 u' m' t' = membership_count s u' m' t') ∧
     users r.1 = users s ∧ movies r.1 = movies s).
Proof.
  cbv zeta. unfold membership_count.
  set (q := membership_query (User_id cu) m t).
  assert (Hlen := delete_one_length (user_lists s) q).
  assert (Hcnt := delete_one_count (user_lists s) q).
  split.
  - intros Hz. apply length_zero_iff_nil in Hz.
    apply delete_one_zero in Hz as Hd.
    unfold remove_from_list. fold q. rewrite Hd. cbn.
    rewrite (delete_one_zero_id _ _ Hd). by destruct s.
  - intros Hnz.
    assert (Hd : (delete_one (user_lists s) q).2 ≠ 0%Z).
    { intros Hd. apply delete_one_zero in Hd. by rewrite Hd in Hnz. }
    rewrite remove_from_list_user_lists. fold q.
    destruct (remove_from_list_others s m t cu) as [Eu Em].
    split; [|split; [lia|split; [|done]]].
    + unfold remove_from_list. fold q.
      by destruct (Z.eqb_spec (delete_one (user_lists s) q).2 0).
    + intros u' m' t' Hne. f_equal. apply delete_one_find_other.
      intros d. by apply membership_query_disjoint.
Qed.

(** The query of [get_user_list]. *)
Lemma list_query_membership (d : Doc) u m t u' t' :
  (u, t) ≠ (u', t') →
  matches (membership_query u m t) d = true →
  matches [("user_id", CEq (VStr u')); ("list_type", CEq (VStr t'))] d = false.
Proof.
  intros Hne Hm. apply matches_membership_doc in Hm as (Hu & _ & Ht).
  unfold matches, field_matches. cbn [forallb fst snd]. rewrite Hu, Ht.
  cbn [cond_holds]. rewrite andb_true_r.
  apply andb_false_iff.
  destruct (decide (u = u')) as [->|Hu']; [right|left];
    apply bool_decide_eq_false; intros [= ->]; by destruct Hne.
Qed.

Lemma add_keeps_other_lists s uuid now m t cu t' cu' :
  (User_id cu, t) ≠ (User_id cu', t') →
  get_user_list (add_to_list s uuid now m t cu).1 t' cu' = get_user_list s t' cu'.
Proof.
  intros Hne. unfold add_to_list. destruct (find_one _ _); [done|].
  unfold get_user_list. cbn [fst user_lists movies set_user_lists].
  unfold insert_one. rewrite find_app.
  rewrite (list_query_membership _ (User_id cu) m t) by
    (done || by apply matches_membership).
  by rewrite app_nil_r.
Qed.

Lemma remove_keeps_other_lists s m t cu t' cu' :
  (User_id cu, t) ≠ (User_id cu', t') →
  get_user_list (remove_from_list s m t cu).1 t' cu' = get_user_list s t' cu'.
Proof.
  intros Hne. unfold get_user_list.
  destruct (remove_from_list_others s m t cu) as [_ ->].
  rewrite remove_from_list_user_lists.
  rewrite delete_one_find_other; [done|].
  intros d. by apply list_query_membership.
Qed.

(** X4. The lists are separate: an [add_to_list] or a [remove_from_list]
    for one user and list type changes nothing in what [get_user_list]
    answers for another user or for another list type. *)
Theorem lists_are_separate s uuid now m t cu t' cu' :
  (User_id cu, t) ≠ (User_id cu', t') →
  get_user_list (add_to_list s uuid now m t cu).1 t' cu' = get_user_list s t' cu' ∧
  get_user_list (remove_from_list s m t cu).1 t' cu' = get_user_list s t' cu'.
Proof.
  intros Hne. split.
  - by apply add_keeps_other_lists.
  - by apply remove_keeps_other_lists.
Qed.

(** ** What [get_user_list] returns *)

Lemma wf_as_map {A} (f : A → Doc) (col : list Doc) :
  Forall (fun d : Doc => ∃ a, d = f a) col → ∃ l, col = map f l.
Proof.
  induction 1 as [|d col [a ->] _ [l ->]].
  - by exists [].
  - by exists (a :: l).
Qed.

Lemma for_each_map {A B C} (g : A → B) (f : B → Result C) (h : A → C) (l : list A) :
  (∀ a, a ∈ l → f (g a) = Ok (h a)) →
  for_each f (map g l) = Ok (map h l).
Proof.
  induction l as [|a l IH]; intros Hf; simpl; [done|].
  rewrite Hf by left. simpl. rewrite IH by (intros b Hb; apply Hf; by right). done.
Qed.

Lemma find_map {A} (f : A → Doc) (q : Query) (l : list A) :
  find (map f l) q = map f (List.filter (fun a => matches q (f a)) l).
Proof.
  unfold find. induction l as [|a l IH]; simpl; [done|].
  destruct (matches q (f a)); simpl; by rewrite IH.
Qed.

Lemma matches_list_query l u t :
  matches [("user_id", CEq (VStr u)); ("list_type", CEq (VStr t))] (UserList_dict l) =
  bool_decide (UserList_user_id l = u) && bool_decide (UserList_list_type l = t).
Proof.
  unfold matches, field_matches. cbn [forallb fst snd].
  change (UserList_dict l !! "user_id") with (Some (VStr (UserList_user_id l))).
  change (UserList_dict l !! "list_type") with (Some (VStr (UserList_list_type l))).
  cbn [cond_holds]. rewrite andb_true_r.
  f_equal; apply bool_decide_ext; split; congruence.
Qed.

Lemma matches_id_in x ids :
  matches [("id", CIn ids)] (Movie_dict x) = bool_decide (VStr (Movie_id x) ∈ ids).
Proof.
  unfold matches, field_matches. cbn [forallb fst snd].
  change (Movie_dict x !! "id") with (Some (VStr (Movie_id x))).
  cbn [cond_holds]. by rewrite andb_true_r.
Qed.

Section ListContents.

Context `{libs : Libraries}.

(** X5. In a reachable state [get_user_list] does not raise, and what it
    returns is the catalogue, in the order of the catalogue, cut down to
    the movies the user has a record for under that list type; the order
    in which the movies were added plays no part. *)
Theorem get_user_list_is_filtered_catalogue s t cu :
  reachable s →
  ∃ cat,
    movies s = map Movie_dict cat ∧
    get_user_list s t cu =
      Ok (List.filter
            (fun x => bool_decide
                        (1 ≤ membership_count s (User_id cu) (Movie_id x) t)%nat)
            cat).
Proof.
  intros Hr. destruct (reachable_invariant s Hr) as (_ & _ & Hm & Hl).
  destruct (wf_as_map Movie_dict _ Hm) as [cat Hcat].
  destruct (wf_as_map UserList_dict _ Hl) as [ls Hls].
  exists cat. split; [done|].
  unfold get_user_list, membership_count. rewrite Hcat, Hls.
  rewrite find_map.
  rewrite (for_each_map UserList_dict _ (fun l => VStr (UserList_movie_id l)))
    by done.
  cbn [mbind Result_bind]. rewrite find_map.
  rewrite (for_each_map Movie_dict _ id)
    by (intros x _; by rewrite Movie_of_dict).
  rewrite map_id. f_equal.
  apply List.filter_ext. intros x. rewrite matches_id_in.
  apply bool_decide_ext. rewrite find_map, length_map.
  rewrite list_elem_of_In, in_map_iff.
  split.
  - intros (l & [= Hid] & Hin). apply filter_In in Hin as [Hin Hq].
    rewrite matches_list_query in Hq.
    apply andb_true_iff in Hq as [Hu Ht].
    apply bool_decide_eq_true in Hu, Ht.
    assert (Hin' : In l (List.filter
               (fun a => matches (membership_query (User_id cu) (Movie_id x) t)
                           (UserList_dict a)) ls)).
    { apply filter_In. split; [done|]. by apply matches_membership. }
    destruct (List.filter _ ls); [done | simpl; lia].
  - intros Hlen.
    destruct (List.filter
                (fun a => matches (membership_query (User_id cu) (Movie_id x) t)
                            (UserList_dict a)) ls) as [|l rest] eqn:Hf;
      [simpl in Hlen; lia|].
    assert (Hin : In l (l :: rest)) by (by left).
    rewrite <- Hf in Hin. apply filter_In in Hin as [Hin Hq].
    apply matches_membership in Hq as (Hu & Hmv & Ht).
    exists l. split; [by rewrite Hmv|].
    apply filter_In. split; [done|]. rewrite matches_list_query.
    by rewrite !bool_decide_true.
Qed.

End ListContents.

(** ** Users *)

Lemma step_movies_grow `{libs : Libraries} s s' :
  step s s' → ∃ extra, movies s' = movies s ++ extra.
Proof.
  destruct 1.
  - exists []. rewrite app_nil_r. apply register_user_lists.
  - unfold create_movie. destruct (Movie_encodable _); [by eexists|].
    exists []. by rewrite app_nil_r.
  - exists []. rewrite app_nil_r. apply add_to_list_others.
  - exists []. rewrite app_nil_r. apply remove_from_list_others.
Qed.

Lemma steps_movies_grow `{libs : Libraries} s s' :
  rtc step s s' → ∃ extra, movies s' = movies s ++ extra.
Proof.
  induction 1 as [s|s s1 s2 Hstep _ [extra2 IH]].
  - exists []. by rewrite app_nil_r.
  - destruct (step_movies_grow _ _ Hstep) as [extra1 H1].
    exists (extra1 ++ extra2). by rewrite IH, H1, app_assoc.
Qed.

Section Users.

Context `{libs : Libraries}.

Lemma register_email_count s uuid c salt now ud e :
  (email_count s e ≤ 1)%nat →
  (email_count (register s uuid c salt now ud).1 e ≤ 1)%nat.
Proof.
  unfold email_count, register.
  destruct (find_one (users s) (email_query (UserCreate_email ud))) eqn:Hf;
    cbn [fst users set_users]; [done|].
  intros Hle. unfold insert_one. rewrite find_app, length_app.
  unfold email_query at 2. rewrite matches_field.
  destruct (bool_decide _) eqn:He; [|simpl; lia].
  apply bool_decide_eq_true in He.
  change (Some (VStr (UserCreate_email ud)) = Some (VStr e)) in He.
  injection He as <-.
  apply find_one_None in Hf. unfold email_query in *. rewrite Hf. simpl. lia.
Qed.

(** X6. No two stored users share an email: in every reachable state
    each email belongs to at most one user document. *)
Theorem email_unique s :
  reachable s → ∀ e, (email_count s e ≤ 1)%nat.
Proof.
  induction 1 as [|s s' _ IH Hstep]; intros e.
  - unfold email_count. simpl. lia.
  - destruct Hstep.
    + by apply register_email_count.
    + unfold create_movie. destruct (Movie_encodable _); apply IH.
    + unfold email_count. rewrite (proj1 (add_to_list_others _ _ _ _ _ _)). apply IH.
    + unfold email_count. rewrite (proj1 (remove_from_list_others _ _ _ _)). apply IH.
Qed.

(** X7. Requests never delete or rewrite a user or a movie: along any
    sequence of requests the users and the catalogue only grow at the
    end, so only the membership records can go away. *)
Theorem users_and_movies_only_grow s s' :
  rtc step s s' →
  users s `prefix_of` users s' ∧ movies s `prefix_of` movies s'.
Proof.
  intros Hsteps. split.
  - destruct (steps_users_grow _ _ Hsteps) as [extra ->]. by eexists.
  - destruct (steps_movies_grow _ _ Hsteps) as [extra ->]. by eexists.
Qed.

Lemma find_one_id_new col (d : Doc) uid :
  existsb (fun x : Doc => bool_decide (x !! "id" = Some (VStr uid))) col = false →
  d !! "id" = Some (VStr uid) →
  find_one (col ++ [d]) [("id", CEq (VStr uid))] = Some d.
Proof.
  intros Hno Hid. apply find_one_field_None in Hno.
  rewrite find_one_app, Hno, matches_field. by rewrite bool_decide_true.
Qed.

(** X8. The token of a registration resolves to the registered user: when
    [register] succeeds with an identifier that is not empty and that no
    stored user has, [get_me] with the token of the response returns a
    user with the identifier, the email and the name of the response, at
    every time before the token expires ([token_expiry T], which is
    [T + 24h] cut down to a whole second) and in every later state.
    Nothing is said of [created_at], which the database keeps to the
    millisecond only. *)
Theorem register_then_get_me s uuid c salt T ud s' r s'' now :
  register s uuid c salt T ud = (s', Ok r) →
  uuid ≠ "" →
  user_exists s uuid = false →
  rtc step s' s'' →
  jwt_round_trip uuid (T + timedelta_hours JWT_EXPIRATION) now →
  (now < token_expiry T)%Z →
  ∃ u, get_me s'' now (resp_token r) = Ok u ∧
       User_id u = User_id (resp_user r) ∧
       User_email u = User_email (resp_user r) ∧
       User_name u = User_name (resp_user r) ∧
       User_id u = uuid ∧
       User_email u = UserCreate_email ud ∧
       User_name u = UserCreate_name ud.
Proof.
  intros Hreg Hne Hfresh Hsteps Hjwt Hnow.
  unfold register in Hreg. destruct (find_one _ _); [discriminate|].
  injection Hreg as <- <-. cbn [resp_token resp_user].
  apply steps_users_grow in Hsteps as [extra Husers].
  unfold jwt_round_trip in Hjwt.
  change (jwt_encode _ _ _) with (create_jwt_token T uuid) in Hjwt.
  fold (token_expiry T) in Hjwt.
  destruct (Z.leb_spec (token_expiry T) now) as [|_]; [lia|].
  destruct Hjwt as (claims & Hdec & Hsub).
  eexists. split; [|done].
  unfold get_me, get_current_user, get_current_user_try.
  rewrite Hdec. cbn [mbind Result_bind]. rewrite Hsub.
  cbn [Json_truthy find_one_claim].
  destruct (String.eqb_spec uuid "") as [|_]; [done|]. cbn [negb].
  rewrite Husers. cbn [users set_users]. unfold insert_one.
  erewrite find_one_app_l; [|by apply find_one_id_new].
  cbn [mbind Result_bind]. by rewrite User_of_stored.
Qed.

(** X9. What [get_current_user] does with a token, in a reachable
    state, by what [jwt.decode] makes of it.  An expired signature gives
    401 "Token expired" and any other token error 401 "Invalid token";
    decoded claims without a [user_id], or with one that Python takes
    for false (the empty string, the empty object, zero, null), give 401
    "Invalid token".  A non-empty [user_id] string gives 401 "User not
    found" when no stored user has it as identifier, and otherwise a
    stored user with that identifier.  A [user_id] that is not a string,
    an object such as [{'$ne': ''}] among them, goes into the query as
    it is: when the driver or the server refuses it, their exception is
    not caught; otherwise the answer is 401 "User not found" when no
    stored user meets MongoDB's reading of it, and the first stored user
    that meets it when there is one, whose identifier the token need not
    name. *)
Theorem get_current_user_sound s now token :
  reachable s →
  (jwt_decode token JWT_SECRET [JWT_ALGORITHM] now = Raise ExpiredSignatureError →
     get_current_user s now token = Raise (HTTPException 401 "Token expired")) ∧
  (jwt_decode token JWT_SECRET [JWT_ALGORITHM] now = Raise InvalidTokenError →
     get_current_user s now token = Raise (HTTPException 401 "Invalid token")) ∧
  (∀ claims,
     jwt_decode token JWT_SECRET [JWT_ALGORITHM] now = Ok claims →
     (claims !! "user_id" = None →
        get_current_user s now token = Raise (HTTPException 401 "Invalid token")) ∧
     (∀ v,
        claims !! "user_id" = Some v → Json_truthy v = false →
        get_current_user s now token = Raise (HTTPException 401 "Invalid token")) ∧
     (∀ uid,
        claims !! "user_id" = Some (JStr uid) → uid ≠ "" →
        (user_exists s uid = false →
           get_current_user s now token = Raise (HTTPException 401 "User not found")) ∧
        (user_exists s uid = true →
           ∃ u (d : Doc),
             get_current_user s now token = Ok u ∧ User_id u = uid ∧
             d ∈ users s ∧ d !! "id" = Some (VStr uid) ∧ User_of d = Some u)) ∧
     (∀ v,
        claims !! "user_id" = Some v → Json_truthy v = true →
        (∀ uid, v ≠ JStr uid) →
        (∀ e, mongo_field_cond "id" v = Raise e →
              e ≠ ExpiredSignatureError → e ≠ InvalidTokenError →
              get_current_user s now token = Raise e) ∧
        (∀ holds,
           mongo_field_cond "id" v = Ok holds →
           (List.find holds (users s) = None →
              get_current_user s now token = Raise (HTTPException 401 "User not found")) ∧
           (∀ d, List.find holds (users s) = Some d →
              ∃ u, get_current_user s now token = Ok u ∧
                   d ∈ users s ∧ holds d = true ∧ User_of d = Some u)))).
Proof.
  intros Hr. destruct (reachable_invariant s Hr) as (_ & Hw & _).
  unfold users_wf in Hw. rewrite Forall_forall in Hw.
  split; [apply get_current_user_expired|].
  split; [apply get_current_user_invalid|].
  intros claims Hdec. unfold get_current_user, get_current_user_try.
  rewrite Hdec. cbn [mbind Result_bind].
  split; [by intros ->|].
  split; [by intros v -> ->|].
  split.
  - intros uid -> Hne. cbn [Json_truthy find_one_claim].
    destruct (String.eqb_spec uid "") as [|_]; [done|]. cbn [negb].
    split.
    + intros Hno. apply find_one_field_None in Hno. by rewrite Hno.
    + intros Hex.
      apply find_one_field_Some in Hex as (d & Hf & Hin & Hid).
      destruct (Hw d Hin) as (u & h & Hd & _).
      exists u, d. rewrite Hf. cbn [mbind Result_bind].
      rewrite Hd, User_of_stored.
      split; [done|]. split; [by eapply stored_user_id|].
      split; [by rewrite <- Hd|]. split; [by rewrite <- Hd|done].
  - intros v -> -> Hobj.
    assert (Hq : find_one_claim (users s) "id" v =
                 holds ← mongo_field_cond "id" v; Ok (List.find holds (users s))).
    { destruct v; try done. by destruct (Hobj s0). }
    rewrite Hq. split.
    + intros e -> He1 He2. cbn [mbind Result_bind]. by destruct e.
    + intros holds ->. cbn [mbind Result_bind]. split; [by intros ->|].
      intros d Hd. rewrite Hd.
      apply find_some in Hd as [Hin Hholds].
      apply list_elem_of_In in Hin.
      destruct (Hw d Hin) as (u & h & Hu & _).
      assert (Hof : User_of d = Some u) by (rewrite Hu; apply User_of_stored).
      exists u. rewrite Hof. done.
Qed.

(** X10. [login] succeeds only on a stored credential: a success means
    that a stored user document has the email of the request and a
    password hash that verifies the password of the request; the user of
    the response is read from that document, and the token is the one
    [create_jwt_token] makes for that user at that time. *)
Theorem login_sound s now ld r :
  login s now ld = Ok r →
  ∃ (d : Doc) h,
    d ∈ users s ∧
    d !! "email" = Some (VStr (UserLogin_email ld)) ∧
    d !! "password_hash" = Some (VStr h) ∧
    verify_password (UserLogin_password ld) h = true ∧
    User_of d = Some (resp_user r) ∧
    User_email (resp_user r) = UserLogin_email ld ∧
    resp_token r = create_jwt_token now (User_id (resp_user r)).
Proof.
  unfold login. destruct (find_one _ _) as [d|] eqn:Hf; [|discriminate].
  apply find_one_Some_matches in Hf as [Hin Hm].
  unfold email_query in Hm. rewrite matches_field in Hm.
  apply bool_decide_eq_true in Hm.
  destruct (d !! "password_hash") as [v|] eqn:Hh; cbn; [|discriminate].
  destruct v as [|h| | | |]; cbn; try discriminate.
  destruct (verify_password _ h) eqn:Hv; cbn; [|discriminate].
  destruct (User_of d) as [u|] eqn:Hu; cbn; [|discriminate].
  intros [= <-]. cbn. exists d, h. repeat (split; [done|]).
  split; [|done].
  unfold User_of in Hu. rewrite Hm in Hu. cbn in Hu.
  destruct (d !! "id" ≫= as_str); cbn in Hu; [|discriminate].
  destruct (d !! "name" ≫= as_str); cbn in Hu; [|discriminate].
  destruct (d !! "created_at" ≫= as_date); cbn in Hu; [|discriminate].
  by injection Hu as <-.
Qed.

End Users.

(** ** The list endpoints *)

Section Endpoints.

Context `{libs : Libraries}.

Lemma Depends_rejected {A} s now token (handler : User → DB * Result A) e :
  get_current_user s now token = Raise e →
  Depends_get_current_user s now token handler = (s, Raise e).
Proof. intros He. unfold Depends_get_current_user. by rewrite He. Qed.

Lemma Depends_accepted {A} s now token (handler : User → DB * Result A) u :
  get_current_user s now token = Ok u →
  Depends_get_current_user s now token handler = handler u.
Proof. intros Hu. unfold Depends_get_current_user. by rewrite Hu. Qed.

(** X11. The list endpoints act for the user the token was issued to, and
    only while the token is valid.  With a token that [register] or
    [login] handed out at time [T], presented in a later state: before
    [token_expiry T], which is [T + 24h] cut down to a whole second, each
    endpoint does what its handler does for a stored user with the
    identifier the token was issued for; from [token_expiry T] on each
    endpoint raises "Token expired" (401) and the database stays as it
    is. *)
Theorem list_endpoints_with_issued_token s T token uid s' s'' now :
  reachable s →
  issued s T token uid s' →
  rtc step s' s'' →
  jwt_round_trip uid (T + timedelta_hours JWT_EXPIRATION) now →
  ((T ≤ now < token_expiry T)%Z →
     ∃ u, User_id u = uid ∧
          (∀ uuid c m t,
             post_user_lists s'' now token uuid c m t = add_to_list s'' uuid c m t u) ∧
          (∀ m t,
             delete_user_lists s'' now token m t = remove_from_list s'' m t u) ∧
          (∀ t,
             get_user_lists s'' now token t = (s'', get_user_list s'' t u))) ∧
  ((token_expiry T ≤ now)%Z →
     (∀ uuid c m t,
        post_user_lists s'' now token uuid c m t =
          (s'', Raise (HTTPException 401 "Token expired"))) ∧
     (∀ m t,
        delete_user_lists s'' now token m t =
          (s'', Raise (HTTPException 401 "Token expired"))) ∧
     (∀ t,
        get_user_lists s'' now token t =
          (s'', Raise (HTTPException 401 "Token expired")))).
Proof.
  intros Hr Hissued Hsteps Hjwt.
  destruct (issued_token _ _ _ _ _ Hr Hissued) as (Hr' & -> & Hne & Hex).
  destruct (token_window_stored_user s'' uid T now) as [Hin Hout]; try done.
  { by eapply reachable_steps. }
  { by eapply user_exists_steps. }
  split; intros Hnow.
  - destruct (Hin (proj2 Hnow)) as (u & Hu & Hid). exists u. split; [done|].
    unfold post_user_lists, delete_user_lists, get_user_lists.
    split; [|split]; intros; by rewrite (Depends_accepted _ _ _ _ _ Hu).
  - specialize (Hout Hnow).
    unfold post_user_lists, delete_user_lists, get_user_lists.
    split; [|split]; intros; by rewrite (Depends_rejected _ _ _ _ _ Hout).
Qed.

(** X12. Through the endpoints nobody changes a list that is not theirs:
    whatever the token, a [POST] or [DELETE] on [/user/lists] leaves
    [get_user_list] of every user other than the one the token resolves
    to unchanged; when the token is rejected it leaves the whole database
    unchanged. *)
Theorem list_endpoints_touch_own_lists_only s now token uuid c m t :
  (∀ e, get_current_user s now token = Raise e →
     post_user_lists s now token uuid c m t = (s, Raise e) ∧
     delete_user_lists s now token m t = (s, Raise e)) ∧
  (∀ cu' t',
     (∀ u, get_current_user s now token = Ok u → User_id u ≠ User_id cu') →
     get_user_list (post_user_lists s now token uuid c m t).1 t' cu' =
       get_user_list s t' cu' ∧
     get_user_list (delete_user_lists s now token m t).1 t' cu' =
       get_user_list s t' cu').
Proof.
  split.
  - intros e He. unfold post_user_lists, delete_user_lists.
    by rewrite !(Depends_rejected _ _ _ _ _ He).
  - intros cu' t' Hother.
    unfold post_user_lists, delete_user_lists, Depends_get_current_user.
    destruct (get_current_user s now token) as [u|e]; [|done].
    assert (Hne : (User_id u, t) ≠ (User_id cu', t')).
    { intros [= Hid _]. by eapply Hother. }
    split.
    + by apply add_keeps_other_lists.
    + by apply remove_keeps_other_lists.
Qed.

End Endpoints.

(** ** The catalogue *)

Lemma find_one_new_field col (d : Doc) k v :
  find_one col [(k, CEq v)] = None → d !! k = Some v →
  find_one (col ++ [d]) [(k, CEq v)] = Some d.
Proof.
  intros Hno Hk. rewrite find_one_app, Hno, matches_field.
  by rewrite bool_decide_true.
Qed.

(** X13. A created movie can be fetched.  When [year] and [duration]
    fit in 8 bytes, [create_movie] returns the new movie, and when no
    movie of the catalogue has its identifier, [get_movie] with that
    identifier returns right afterwards a movie with that identifier and
    every field of the request; nothing is said of its [created_at],
    which the database keeps to the millisecond only.  When one of the
    two does not fit, [create_movie] raises [OverflowError] and the
    database stays as it is. *)
Theorem create_then_get_movie s uuid now md :
  catalogue_count s uuid = 0%nat →
  (Movie_encodable (Movie_new uuid now md) = true →
     (create_movie s uuid now md).2 = Ok (Movie_new uuid now md) ∧
     ∃ m, get_movie (create_movie s uuid now md).1 uuid = Ok m ∧
          Movie_id m = uuid ∧ MovieCreate_of m = md) ∧
  (Movie_encodable (Movie_new uuid now md) = false →
     create_movie s uuid now md = (s, Raise OverflowError)).
Proof.
  intros Hfresh. unfold create_movie. split; intros ->; [|done].
  split; [done|]. exists (Movie_new uuid now md).
  apply length_zero_iff_nil, find_one_None in Hfresh.
  unfold get_movie. cbn [fst movies set_movies]. unfold insert_one.
  rewrite (find_one_new_field _ (Movie_dict (Movie_new uuid now md)) _ _ Hfresh)
    by done.
  rewrite Movie_of_dict. by destruct md.
Qed.

Section Catalogue.

Context `{libs : Libraries}.

(** X14. In a reachable state [get_movie] raises "Movie not found" (404)
    exactly when the catalogue has no movie with the identifier, and
    otherwise returns a movie of the catalogue with that identifier; it
    raises nothing else. *)
Theorem get_movie_found_or_404 s movie_id :
  reachable s →
  (catalogue_count s movie_id = 0%nat ∧
   get_movie s movie_id = Raise (HTTPException 404 "Movie not found")) ∨
  (catalogue_count s movie_id ≠ 0%nat ∧
   ∃ m, get_movie s movie_id = Ok m ∧ Movie_id m = movie_id ∧
        Movie_dict m ∈ movies s).
Proof.
  intros Hr. destruct (reachable_invariant s Hr) as (_ & _ & Hm & _).
  unfold movies_wf in Hm. rewrite Forall_forall in Hm.
  unfold get_movie, catalogue_count.
  destruct (find_one _ _) as [d|] eqn:Hf.
  - right. split.
    { intros Hz. apply length_zero_iff_nil, find_one_None in Hz. congruence. }
    apply find_one_Some_matches in Hf as [Hin Hmatch].
    destruct (Hm d Hin) as [m ->]. exists m. rewrite Movie_of_dict.
    split; [done|]. split; [|done].
    rewrite matches_field in Hmatch. apply bool_decide_eq_true in Hmatch.
    by injection Hmatch.
  - left. split; [|done]. apply find_one_None in Hf. by rewrite Hf.
Qed.

(** X15. What [get_movie] answers for a movie never changes: once it
    returns a movie for an identifier, it returns the same movie in every
    later state, whatever is registered, created, added or removed (a
    later movie with the same identifier stays hidden behind it). *)
Theorem get_movie_stable s s' movie_id m :
  get_movie s movie_id = Ok m →
  rtc step s s' →
  get_movie s' movie_id = Ok m.
Proof.
  unfold get_movie. intros Hget Hsteps.
  destruct (find_one (movies s) _) as [d|] eqn:Hf; [|discriminate].
  destruct (steps_movies_grow _ _ Hsteps) as [extra ->].
  by rewrite (find_one_app_l _ extra _ _ Hf).
Qed.

End Catalogue.

(** ** Genres *)

Lemma Genre_of_dict g : Genre_of (Genre_dict g) = Some g.
Proof. by destruct g. Qed.

Lemma find_all col : find col [] = col.
Proof. unfold find. induction col as [|d col IH]; simpl; by rewrite ?IH. Qed.

Lemma for_each_app {A B} (f : A → Result B) l1 l2 b1 b2 :
  for_each f l1 = Ok b1 → for_each f l2 = Ok b2 →
  for_each f (l1 ++ l2) = Ok (b1 ++ b2).
Proof.
  revert b1. induction l1 as [|a l1 IH]; simpl; intros b1 H1 H2.
  - by injection H1 as <-.
  - destruct (f a) as [b|]; simpl in *; [|discriminate].
    destruct (for_each f l1) as [bs|]; simpl in *; [|discriminate].
    injection H1 as <-. by rewrite (IH bs eq_refl H2).
Qed.

(** X16. A created genre shows up in the listing: [create_genre] returns
    the genre it was given and never refuses, and when [get_genres]
    returned a list before, it returns afterwards the same list with the
    new genre at its end, even when a genre with the same identifier was
    there already. *)
Theorem create_then_get_genres genres genre l :
  get_genres genres = Ok l →
  (create_genre genres genre).2 = Ok genre ∧
  get_genres (create_genre genres genre).1 = Ok (l ++ [genre]).
Proof.
  unfold get_genres, create_genre, insert_one. rewrite !find_all.
  intros Hl. split; [done|]. cbn [fst].
  apply for_each_app; [done|]. simpl. by rewrite Genre_of_dict.
Qed.

(** ** Seeding *)

Section Seed.

Context {A : Type} (k : string) (key : A → Value) (dict : A → Doc).
Hypothesis dict_key : ∀ a, dict a !! k = Some (key a).

Lemma seed_with_present col a :
  has_field k (key a) col = true → seed_with k key dict col a = col.
Proof.
  intros Hhas. apply find_one_field_Some in Hhas as (d & Hf & _).
  unfold seed_with. by rewrite Hf.
Qed.

Lemma seed_with_prefix col a : col `prefix_of` seed_with k key dict col a.
Proof.
  unfold seed_with. destruct (find_one _ _); [done|]. by eexists.
Qed.

Lemma has_field_prefix col col' v :
  col `prefix_of` col' → has_field k v col = true → has_field k v col' = true.
Proof.
  intros [extra ->] Hhas. unfold has_field in *. by rewrite existsb_app, Hhas.
Qed.

Lemma seed_with_has col a : has_field k (key a) (seed_with k key dict col a) = true.
Proof.
  unfold seed_with. destruct (find_one _ _) as [d|] eqn:Hf.
  - destruct (has_field k (key a) col) eqn:Hhas; [done|].
    apply find_one_field_None in Hhas. congruence.
  - unfold has_field, insert_one. rewrite existsb_app. simpl.
    rewrite bool_decide_true by apply dict_key. by rewrite orb_true_r.
Qed.

Lemma fold_seed_prefix l col : col `prefix_of` fold_left (seed_with k key dict) l col.
Proof.
  revert col. induction l as [|a l IH]; intros col; simpl; [done|].
  etrans; [apply seed_with_prefix | apply IH].
Qed.

Lemma fold_seed_has l col a :
  a ∈ l → has_field k (key a) (fold_left (seed_with k key dict) l col) = true.
Proof.
  revert col. induction l as [|b l IH]; intros col Hin; [by inversion Hin|].
  simpl. apply elem_of_cons in Hin as [->|Hin]; [|by apply IH].
  eapply has_field_prefix; [apply fold_seed_prefix | apply seed_with_has].
Qed.

Lemma fold_seed_present l col :
  (∀ a, a ∈ l → has_field k (key a) col = true) →
  fold_left (seed_with k key dict) l col = col.
Proof.
  induction l as [|a l IH]; intros Hall; simpl; [done|].
  rewrite seed_with_present by (apply Hall; by left).
  apply IH. intros b Hb. apply Hall. by right.
Qed.

(** A second pass over samples with the same keys stores nothing. *)
Lemma fold_seed_twice l l' col :
  key <$> l' = key <$> l →
  fold_left (seed_with k key dict) l' (fold_left (seed_with k key dict) l col) =
  fold_left (seed_with k key dict) l col.
Proof.
  intros Hkeys. apply fold_seed_present. intros a' Ha'.
  assert (Hk : key a' ∈ key <$> l) by (rewrite <- Hkeys; by apply list_elem_of_fmap_2).
  apply list_elem_of_fmap in Hk as (a & Hka & Ha).
  rewrite Hka. by apply fold_seed_has.
Qed.

End Seed.

Lemma seed_genre_with genres g :
  seed_genre genres g = seed_with "id" (fun g => VStr (Genre_id g)) Genre_dict genres g.
Proof. done. Qed.

Lemma seed_movie_with ms m :
  seed_movie ms m = seed_with "title" (fun m => VStr (Movie_title m)) Movie_dict ms m.
Proof. done. Qed.

Lemma seed_movies_titles uuid now samples :
  (fun m => VStr (Movie_title m)) <$> seed_movies uuid now samples =
  (fun md => VStr (MovieCreate_title md)) <$> samples.
Proof.
  unfold seed_movies. rewrite fmap_imap.
  rewrite <- (imap_const (fun md => VStr (MovieCreate_title md))). by apply imap_ext.
Qed.

(** X17. Seeding twice is seeding once: a second [init_sample_data],
    whatever identifiers and times it draws, leaves the database exactly
    as the first one left it. *)
Theorem init_sample_data_idempotent s uuid now uuid' now' :
  (init_sample_data (init_sample_data s uuid now).1 uuid' now').1 =
  (init_sample_data s uuid now).1.
Proof.
  unfold init_sample_data. cbn [fst site_db site_genres movies set_movies].
  change seed_genre with (seed_with "id" (fun g => VStr (Genre_id g)) Genre_dict).
  change seed_movie with (seed_with "title" (fun m => VStr (Movie_title m)) Movie_dict).
  rewrite (fold_seed_twice "id" _ Genre_dict) by done.
  rewrite (fold_seed_twice "title" _ Movie_dict)
    by (done || by rewrite !seed_movies_titles).
  by destruct s as [[] ?].
Qed.

(** X18. After [init_sample_data], from any database, each of the six
    sample genres is stored under its identifier and each of the four
    sample movies under its title, and the answer is the success message;
    on an empty genre collection [get_genres] then lists exactly the six
    genres in their order, and on an empty catalogue the catalogue is
    exactly the four movies in their order. *)
Theorem init_sample_data_seeds s uuid now :
  let r := init_sample_data s uuid now in
  r.2 = Ok "Sample data initialized successfully" ∧
  (∀ g, g ∈ sample_genres →
     has_field "id" (VStr (Genre_id g)) (site_genres r.1) = true) ∧
  (∀ md, md ∈ sample_movies →
     has_field "title" (VStr (MovieCreate_title md)) (movies (site_db r.1)) = true) ∧
  (site_genres s = [] → get_genres (site_genres r.1) = Ok sample_genres) ∧
  (movies (site_db s) = [] →
     movies (site_db r.1) = Movie_dict <$> seed_movies uuid now sample_movies).
Proof.
  cbv zeta. unfold init_sample_data. cbn [fst snd site_db site_genres movies set_movies].
  change seed_genre with (seed_with "id" (fun g => VStr (Genre_id g)) Genre_dict).
  change seed_movie with (seed_with "title" (fun m => VStr (Movie_title m)) Movie_dict).
  split; [done|]. split; [|split; [|split]].
  - intros g Hg. by apply (fold_seed_has "id" (fun g => VStr (Genre_id g)) Genre_dict).
  - intros md Hmd.
    assert (Hk : VStr (MovieCreate_title md) ∈
                 (fun m => VStr (Movie_title m)) <$> seed_movies uuid now sample_movies).
    { rewrite seed_movies_titles.
      by apply (list_elem_of_fmap_2 (fun md => VStr (MovieCreate_title md))). }
    apply list_elem_of_fmap in Hk as (m & -> & Hm).
    by apply (fold_seed_has "title" (fun m => VStr (Movie_title m)) Movie_dict).
  - intros ->. reflexivity.
  - intros ->. reflexivity.
Qed.

Section SeedSteps.

Context `{libs : Libraries}.

Lemma set_movies_id s : set_movies s (movies s) = s.
Proof. by destruct s. Qed.

Lemma create_movie_encodable s uuid now md :
  int64 (MovieCreate_year md) && int64 (MovieCreate_duration md) = true →
  (create_movie s uuid now md).1 =
  set_movies s (insert_one (movies s) (Movie_dict (Movie_new uuid now md))).
Proof.
  intros Hfit. unfold create_movie, Movie_encodable.
  cbn [Movie_year Movie_duration Movie_new]. by rewrite Hfit.
Qed.

Lemma seed_movies_steps samples uuid now s :
  Forall (fun md => int64 (MovieCreate_year md) && int64 (MovieCreate_duration md) = true)
         samples →
  rtc step s
    (set_movies s (fold_left seed_movie (seed_movies uuid now samples) (movies s))).
Proof.
  intros Hfit. revert uuid now s.
  induction Hfit as [|md rest Hmd _ IH]; intros uuid now s.
  - simpl. by rewrite set_movies_id.
  - unfold seed_movies. rewrite imap_cons. cbn [fold_left].
    fold (seed_movies (uuid ∘ S) (now ∘ S) rest).
    set (m := Movie_new (uuid 0%nat) (now 0%nat) md).
    set (s1 := set_movies s (seed_movie (movies s) m)).
    assert (Hs1 : rtc step s s1).
    { unfold s1, seed_movie. destruct (find_one _ _).
      - by rewrite set_movies_id.
      - apply rtc_once.
        pose proof (create_movie_encodable s (uuid 0%nat) (now 0%nat) md Hmd) as Hcm.
        pose proof (step_create_movie s (uuid 0%nat) (now 0%nat) md) as Hstep.
        rewrite Hcm in Hstep. exact Hstep. }
    etrans; [exact Hs1|].
    exact (IH (uuid ∘ S) (now ∘ S) s1).
Qed.

(** X19. Seeding does to [db.users], [db.movies] and [db.user_lists]
    what a sequence of [create_movie] requests would do: users and
    membership records stay as they are, stored movies and genres stay
    where they are with the new ones after them, and a database that was
    reachable by requests is reachable afterwards, so every invariant of
    the reachable states holds after seeding as well. *)
Theorem init_sample_data_is_requests s uuid now :
  let s' := (init_sample_data s uuid now).1 in
  rtc step (site_db s) (site_db s') ∧
  users (site_db s') = users (site_db s) ∧
  user_lists (site_db s') = user_lists (site_db s) ∧
  movies (site_db s) `prefix_of` movies (site_db s') ∧
  site_genres s `prefix_of` site_genres s' ∧
  (reachable (site_db s) → reachable (site_db s')).
Proof.
  cbv zeta. unfold init_sample_data. cbn [fst site_db site_genres].
  assert (Hsteps := seed_movies_steps sample_movies uuid now (site_db s)
                      ltac:(by repeat constructor)).
  split; [done|]. split; [done|]. split; [done|]. split; [|split].
  - cbn [movies set_movies].
    change seed_movie with (seed_with "title" (fun m => VStr (Movie_title m)) Movie_dict).
    apply fold_seed_prefix.
  - change seed_genre with (seed_with "id" (fun g => VStr (Genre_id g)) Genre_dict).
    apply fold_seed_prefix.
  - intros Hr. by eapply reachable_steps.
Qed.

End SeedSteps.

(** X20. [get_genres] never fails on what the server stored: on every
    state of [db.genres] that [create_genre] and [init_sample_data] lead
    to from the empty collection it returns one genre per stored
    document, in the order in which they were stored, each equal to the
    genre that was stored. *)
Theorem get_genres_lists_what_was_stored genres :
  genres_reachable genres →
  ∃ l, genres = Genre_dict <$> l ∧ get_genres genres = Ok l.
Proof.
  intros Hr.
  assert (Hwf : ∃ l, genres = Genre_dict <$> l).
  { induction Hr as [|genres genre _ [l ->]|genres _ [l ->]].
    - by exists [].
    - exists (l ++ [genre]). unfold create_genre, insert_one. cbn [fst].
      by rewrite fmap_app.
    - generalize sample_genres. intros samples.
      revert l. induction samples as [|g samples IH]; intros l; [by exists l|].
      cbn [fold_left]. unfold seed_genre at 2.
      destruct (find_one _ _); [apply IH|].
      specialize (IH (l ++ [g])). unfold insert_one.
      by rewrite fmap_app in IH. }
  destruct Hwf as [l ->]. exists l. split; [done|].
  unfold get_genres. rewrite find_all.
  rewrite (for_each_map Genre_dict _ id)
    by (intros g _; by rewrite Genre_of_dict).
  by rewrite map_id.
Qed.

(** ** The further properties on the sample database *)

Lemma add_then_remove_witness :
  remove_from_list Sample.db3 "m-1" "favorites" Sample.alice_user =
    (Sample.db2, Ok "Removed from favorites").
Proof.
  apply (add_then_remove Sample.db2 "l-1" 1002 "m-1" "favorites" Sample.alice_user
           Sample.db3 "Added to favorites").
  compute_eq.
Defined.

Lemma add_to_list_effect_witness :
  membership_count Sample.db2 "u-1" "m-1" "favorites" = 0%nat ∧
  membership_count Sample.db3 "u-1" "m-1" "favorites" = 1%nat ∧
  membership_count Sample.db3 "u-1" "m-1" "watched" =
    membership_count Sample.db2 "u-1" "m-1" "watched" ∧
  users Sample.db3 = users Sample.db2 ∧ movies Sample.db3 = movies Sample.db2.
Proof.
  destruct (add_to_list_effect Sample.db2 "l-1" 1002 "m-1" "favorites" Sample.alice_user)
    as [Hiff Heffect].
  assert (Hok : (add_to_list Sample.db2 "l-1" 1002 "m-1" "favorites" Sample.alice_user).2 =
                Ok "Added to favorites") by compute_eq.
  destruct (Heffect Hok) as (Hone & Hothers & Hu & Hm).
  split; [by apply Hiff|]. split; [exact Hone|]. split; [|by split].
  apply Hothers. discriminate.
Defined.

Lemma remove_from_list_effect_witness :
  remove_from_list Sample.db2 "m-1" "favorites" Sample.alice_user =
    (Sample.db2, Raise (HTTPException 404 "Item not found in list")) ∧
  (remove_from_list Sample.db3 "m-1" "favorites" Sample.alice_user).2 =
    Ok "Removed from favorites" ∧
  S (membership_count
       (remove_from_list Sample.db3 "m-1" "favorites" Sample.alice_user).1
       "u-1" "m-1" "favorites") =
    membership_count Sample.db3 "u-1" "m-1" "favorites".
Proof.
  split.
  - apply (remove_from_list_effect Sample.db2 "m-1" "favorites" Sample.alice_user).
    compute_eq.
  - destruct (proj2 (remove_from_list_effect Sample.db3 "m-1" "favorites"
                       Sample.alice_user)) as (Hok & Hcount & _).
    + vm_compute. discriminate.
    + by split.
Defined.

Lemma lists_are_separate_witness :
  get_user_list Sample.db3 "favorites" Demo.bob_user =
    get_user_list Sample.db2 "favorites" Demo.bob_user ∧
  get_user_list (remove_from_list Sample.db3 "m-1" "favorites" Sample.alice_user).1
    "watched" Sample.alice_user =
    get_user_list Sample.db3 "watched" Sample.alice_user.
Proof.
  split.
  - apply (lists_are_separate Sample.db2 "l-1" 1002 "m-1" "favorites"
             Sample.alice_user "favorites" Demo.bob_user).
    discriminate.
  - apply (lists_are_separate Sample.db3 "l-1" 1002 "m-1" "favorites"
             Sample.alice_user "watched" Sample.alice_user).
    discriminate.
Defined.

Lemma get_user_list_is_filtered_catalogue_witness :
  ∃ cat,
    movies Sample.db3 = map Movie_dict cat ∧
    get_user_list Sample.db3 "favorites" Sample.alice_user =
      Ok (List.filter
            (fun x => bool_decide
                        (1 ≤ membership_count Sample.db3 "u-1" (Movie_id x) "favorites")%nat)
            cat).
Proof.
  apply (get_user_list_is_filtered_catalogue (libs := Sample.libraries)
           Sample.db3 "favorites" Sample.alice_user).
  exact SampleFacts.db3_reachable.
Defined.

Lemma email_unique_witness :
  (email_count Sample.db1 "alice@example.com" ≤ 1)%nat.
Proof.
  apply (email_unique (libs := Sample.libraries) Sample.db1).
  exact SampleFacts.db1_reachable.
Defined.

Lemma sample_steps : rtc (step (libs := Sample.libraries)) Sample.db1 Sample.db3.
Proof. eapply rtc_l; [apply step_create_movie|]. apply rtc_once, step_add_to_list. Qed.

Lemma users_and_movies_only_grow_witness :
  users Sample.db1 `prefix_of` users Sample.db3 ∧
  movies Sample.db1 `prefix_of` movies Sample.db3.
Proof.
  apply (users_and_movies_only_grow (libs := Sample.libraries)).
  exact sample_steps.
Defined.

Lemma register_then_get_me_witness :
  ∃ u, get_me (libs := Sample.libraries) Sample.db3 2000000000 "87400.u-1" = Ok u ∧
       User_id u = "u-1" ∧
       User_email u = "alice@example.com" ∧
       User_name u = "Alice" ∧
       User_id u = "u-1" ∧
       User_email u = "alice@example.com" ∧
       User_name u = "Alice".
Proof.
  apply (register_then_get_me (libs := Sample.libraries)
           empty_db "u-1" 1000 "salt" 1000900000 Sample.alice Sample.db1
           Sample.alice_registered Sample.db3 2000000000).
  - compute_eq.
  - discriminate.
  - reflexivity.
  - exact sample_steps.
  - apply SampleFacts.jwt_round_trip_sample.
  - change (token_expiry 1000900000) with 87400000000%Z. lia.
Defined.

Lemma get_current_user_sound_witness :
  get_current_user (libs := Sample.libraries) Sample.db1 2000000000 "no token" =
    Raise (HTTPException 401 "Invalid token") ∧
  get_current_user (libs := Sample.libraries) Sample.db1 2000000000 "87400.u-404" =
    Raise (HTTPException 401 "User not found") ∧
  (∃ u (d : Doc),
    get_current_user (libs := Sample.libraries) Sample.db1 2000000000 "87400.u-1" = Ok u ∧
    User_id u = "u-1" ∧ d ∈ users Sample.db1 ∧
    d !! "id" = Some (VStr "u-1") ∧ User_of d = Some u) ∧
  ∃ u,
    get_current_user (libs := Sample.libraries) Sample.db1 2000000000 "ne." = Ok u ∧
    Sample.alice_doc ∈ users Sample.db1 ∧
    negb (bool_decide (Sample.alice_doc !! "id" = Some (VStr ""))) = true ∧
    User_of Sample.alice_doc = Some u.
Proof.
  split; [|split; [|split]].
  - apply (get_current_user_sound (libs := Sample.libraries)
             Sample.db1 2000000000 "no token" SampleFacts.db1_reachable).
    compute_eq.
  - assert (Hdec : jwt_decode (Libraries := Sample.libraries) "87400.u-404"
                     (JWT_SECRET (Libraries := Sample.libraries)) [JWT_ALGORITHM]
                     2000000000 = Ok (Demo.claims_for "u-404")) by compute_eq.
    destruct (proj2 (proj2 (get_current_user_sound (libs := Sample.libraries)
                              Sample.db1 2000000000 "87400.u-404"
                              SampleFacts.db1_reachable))
                (Demo.claims_for "u-404") Hdec) as (_ & _ & Hstr & _).
    destruct (Hstr "u-404" eq_refl) as [Hnone _]; [discriminate|].
    apply Hnone. compute_eq.
  - assert (Hdec : jwt_decode (Libraries := Sample.libraries) "87400.u-1"
                     (JWT_SECRET (Libraries := Sample.libraries)) [JWT_ALGORITHM]
                     2000000000 = Ok (Demo.claims_for "u-1")) by compute_eq.
    destruct (proj2 (proj2 (get_current_user_sound (libs := Sample.libraries)
                              Sample.db1 2000000000 "87400.u-1"
                              SampleFacts.db1_reachable))
                (Demo.claims_for "u-1") Hdec) as (_ & _ & Hstr & _).
    destruct (Hstr "u-1" eq_refl) as [_ Hsome]; [discriminate|].
    apply Hsome. compute_eq.
  - assert (Hdec : jwt_decode (Libraries := Sample.libraries) "ne."
                     (JWT_SECRET (Libraries := Sample.libraries)) [JWT_ALGORITHM]
                     2000000000 = Ok Demo.claims_ne) by compute_eq.
    destruct (proj2 (proj2 (get_current_user_sound (libs := Sample.libraries)
                              Sample.db1 2000000000 "ne."
                              SampleFacts.db1_reachable))
                Demo.claims_ne Hdec) as (_ & _ & _ & Hany).
    destruct (Hany (JObj [("$ne", JStr "")]) eq_refl eq_refl) as [_ Hcond];
      [discriminate|].
    destruct (Hcond (fun d : Doc => negb (bool_decide (d !! "id" = Some (VStr ""))))
                eq_refl) as [_ Hfirst].
    apply (Hfirst Sample.alice_doc). compute_eq.
Defined.

Lemma login_sound_witness :
  ∃ (d : Doc) h,
    d ∈ users Sample.db1 ∧
    d !! "email" = Some (VStr "alice@example.com") ∧
    d !! "password_hash" = Some (VStr h) ∧
    verify_password (libs := Sample.libraries) "pw123" h = true ∧
    User_of d = Some Sample.alice_user ∧
    User_email Sample.alice_user = "alice@example.com" ∧
    "88400.u-1" = create_jwt_token (libs := Sample.libraries) 2000000000 "u-1".
Proof.
  apply (login_sound (libs := Sample.libraries) Sample.db1 2000000000 Sample.alice_login
           Sample.alice_logged_in).
  compute_eq.
Defined.

Lemma sample_issued :
  issued (libs := Sample.libraries) empty_db 1000900000 "87400.u-1" "u-1" Sample.db1.
Proof.
  left. exists "u-1", 1000%Z, "salt", Sample.alice, Sample.alice_registered.
  split; [discriminate|]. split; [compute_eq|]. split; reflexivity.
Qed.

Lemma list_endpoints_with_issued_token_witness :
  (∃ u, User_id u = "u-1" ∧
        (∀ uuid c m t,
           post_user_lists (libs := Sample.libraries) Sample.db3 2000000000 "87400.u-1" uuid c m t =
             add_to_list Sample.db3 uuid c m t u) ∧
        (∀ m t,
           delete_user_lists (libs := Sample.libraries) Sample.db3 2000000000 "87400.u-1" m t =
             remove_from_list Sample.db3 m t u) ∧
        (∀ t,
           get_user_lists (libs := Sample.libraries) Sample.db3 2000000000 "87400.u-1" t =
             (Sample.db3, get_user_list Sample.db3 t u))) ∧
  post_user_lists (libs := Sample.libraries) Sample.db3 87400000000 "87400.u-1"
    "l-2" 87400000000 "m-1" "watched" =
    (Sample.db3, Raise (HTTPException 401 "Token expired")).
Proof.
  split.
  - apply (list_endpoints_with_issued_token (libs := Sample.libraries)
             empty_db 1000900000 "87400.u-1" "u-1" Sample.db1 Sample.db3 2000000000).
    + apply reachable_empty.
    + exact sample_issued.
    + exact sample_steps.
    + apply SampleFacts.jwt_round_trip_sample.
    + change (token_expiry 1000900000) with 87400000000%Z. lia.
  - apply (list_endpoints_with_issued_token (libs := Sample.libraries)
             empty_db 1000900000 "87400.u-1" "u-1" Sample.db1 Sample.db3 87400000000).
    + apply reachable_empty.
    + exact sample_issued.
    + exact sample_steps.
    + apply SampleFacts.jwt_round_trip_sample.
    + change (token_expiry 1000900000) with 87400000000%Z. lia.
Defined.

Lemma list_endpoints_touch_own_lists_only_witness :
  post_user_lists (libs := Sample.libraries) Sample.db2 2000000000 "no token"
    "l-1" 2000000000 "m-1" "favorites" =
    (Sample.db2, Raise (HTTPException 401 "Invalid token")) ∧
  get_user_list
    (post_user_lists (libs := Sample.libraries) Sample.db2 2000000000 "87400.u-1"
       "l-1" 2000000000 "m-1" "favorites").1 "favorites" Demo.bob_user =
    get_user_list Sample.db2 "favorites" Demo.bob_user.
Proof.
  split.
  - apply (proj1 (list_endpoints_touch_own_lists_only (libs := Sample.libraries)
                    Sample.db2 2000000000 "no token" "l-1" 2000000000 "m-1" "favorites")).
    compute_eq.
  - apply (proj2 (list_endpoints_touch_own_lists_only (libs := Sample.libraries)
                    Sample.db2 2000000000 "87400.u-1" "l-1" 2000000000 "m-1" "favorites")
             Demo.bob_user "favorites").
    intros u Hu. vm_compute in Hu. injection Hu as <-. discriminate.
Defined.

Lemma create_then_get_movie_witness :
  ((create_movie Sample.db1 "m-1" 1001 Sample.matrix).2 = Ok Demo.matrix_movie ∧
   ∃ m, get_movie Sample.db2 "m-1" = Ok m ∧
        Movie_id m = "m-1" ∧ MovieCreate_of m = Sample.matrix) ∧
  create_movie Sample.db1 "m-2" 1001 Demo.far_future =
    (Sample.db1, Raise OverflowError).
Proof.
  split.
  - apply (create_then_get_movie Sample.db1 "m-1" 1001 Sample.matrix).
    + compute_eq.
    + reflexivity.
  - apply (create_then_get_movie Sample.db1 "m-2" 1001 Demo.far_future).
    + compute_eq.
    + reflexivity.
Defined.

Lemma get_movie_found_or_404_witness :
  ((catalogue_count Sample.db2 "m-404" = 0%nat ∧
    get_movie Sample.db2 "m-404" = Raise (HTTPException 404 "Movie not found")) ∨
   (catalogue_count Sample.db2 "m-404" ≠ 0%nat ∧
    ∃ m, get_movie Sample.db2 "m-404" = Ok m ∧ Movie_id m = "m-404" ∧
         Movie_dict m ∈ movies Sample.db2)) ∧
  ((catalogue_count Sample.db2 "m-1" = 0%nat ∧
    get_movie Sample.db2 "m-1" = Raise (HTTPException 404 "Movie not found")) ∨
   (catalogue_count Sample.db2 "m-1" ≠ 0%nat ∧
    ∃ m, get_movie Sample.db2 "m-1" = Ok m ∧ Movie_id m = "m-1" ∧
         Movie_dict m ∈ movies Sample.db2)).
Proof.
  split.
  - apply (get_movie_found_or_404 (libs := Sample.libraries) Sample.db2 "m-404").
    exact SampleFacts.db2_reachable.
  - apply (get_movie_found_or_404 (libs := Sample.libraries) Sample.db2 "m-1").
    exact SampleFacts.db2_reachable.
Defined.

Lemma get_movie_stable_witness :
  get_movie Sample.db3 "m-1" = Ok Demo.matrix_movie.
Proof.
  apply (get_movie_stable (libs := Sample.libraries) Sample.db2 Sample.db3 "m-1").
  - compute_eq.
  - apply rtc_once, step_add_to_list.
Defined.

Lemma create_then_get_genres_witness :
  (create_genre [] Demo.western).2 = Ok Demo.western ∧
  get_genres (create_genre [] Demo.western).1 = Ok [Demo.western].
Proof.
  apply (create_then_get_genres [] Demo.western []).
  reflexivity.
Defined.

Lemma init_sample_data_seeds_witness :
  get_genres (site_genres (init_sample_data Demo.site0 Demo.seed_uuid Demo.seed_now).1) =
    Ok sample_genres ∧
  movies (site_db (init_sample_data Demo.site0 Demo.seed_uuid Demo.seed_now).1) =
    Movie_dict <$> seed_movies Demo.seed_uuid Demo.seed_now sample_movies.
Proof.
  destruct (init_sample_data_seeds Demo.site0 Demo.seed_uuid Demo.seed_now)
    as (_ & _ & _ & Hgenres & Hmovies).
  split; [by apply Hgenres | by apply Hmovies].
Defined.

Lemma init_sample_data_is_requests_witness :
  reachable (libs := Sample.libraries) (site_db Demo.site1).
Proof.
  apply (init_sample_data_is_requests (libs := Sample.libraries)
           {| site_db := Sample.db1; site_genres := [] |} Demo.seed_uuid Demo.seed_now).
  exact SampleFacts.db1_reachable.
Defined.

Lemma get_genres_lists_what_was_stored_witness :
  ∃ l, (create_genre (fold_left seed_genre sample_genres []) Demo.western).1 =
         Genre_dict <$> l ∧
       get_genres (create_genre (fold_left seed_genre sample_genres []) Demo.western).1 =
         Ok l.
Proof.
  apply get_genres_lists_what_was_stored.
  apply genres_create, genres_seed, genres_empty.
Defined.
